(** * Multi-head self-attention with a hand-written backward pass

    A shallow embedding of [from_scratch_transformer/multihead_attention.py]
    (class [MultiHeadAttention]) and the properties its specification states.

    Tensors are nested lists (a matrix is a list of rows, a 3-D tensor a list of
    matrices).  The element type and the primitives of the tensor library
    (floating-point arithmetic, the reduction order of a dot product or a sum,
    softmax) stay abstract: every theorem holds for whatever they compute. *)

From Stdlib Require Import List ZArith Lia Bool Arith.
From Stdlib Require Reals.
From Stdlib Require Floats.
Import ListNotations.

Set Implicit Arguments.

(** ** Scalars and library primitives *)

(** What [backward] and the layers need of the element type: arithmetic,
    the two reductions ([dotprod] inside a matrix product, [rsum] for
    [Tensor.sum]), the conversion of a Python number and the test [x == 0]. *)
Class Arith (R : Type) : Type := {
  zero : R;
  one : R;
  add : R -> R -> R;
  sub : R -> R -> R;
  mul : R -> R -> R;
  div : R -> R -> R;
  sqrt : R -> R;
  of_int : Z -> R;
  is_zero : R -> bool;
  dotprod : list R -> list R -> R;
  rsum : list R -> R
}.

(** What only the forward pass needs: [float('-inf')] and [torch.softmax]
    on one row. *)
Class Softmax (R : Type) : Type := {
  neg_inf : R;
  softmax_row : list R -> list R
}.

(** ** Errors *)

Inductive exn : Type :=
| AssertionError
| AttributeError
| RuntimeError
| ZeroDivisionError.

Inductive result (A : Type) : Type :=
| Ok (a : A)
| Raise (e : exn).

Arguments Ok {A} a.
Arguments Raise {A} e.

Definition bind {A B : Type} (m : result A) (k : A -> result B) : result B :=
  match m with
  | Ok a => k a
  | Raise e => Raise e
  end.

Notation "x <- m ;; k" := (bind m (fun x => k))
  (at level 61, m at next level, right associativity).

(** Dereferencing an attribute of a field that may still be [None]. *)
Definition deref {A : Type} (o : option A) : result A :=
  match o with
  | Some a => Ok a
  | None => Raise AttributeError
  end.

(** ** Tensors *)

Abbreviation matrix R := (list (list R)).
Abbreviation tensor3 R := (list (list (list R))).

Section Tensors.
Context {R : Type}.

Definition zip_with {A B C : Type} (f : A -> B -> C) (l1 : list A) (l2 : list B)
  : list C :=
  map (fun p => f (fst p) (snd p)) (combine l1 l2).

Definition nrows (m : matrix R) : nat := length m.
Definition ncols (m : matrix R) : nat := length (hd [] m).

(** [m[i]] and [m[i][j]]; an index out of range cannot occur on the shapes
    the theorems assume. *)
Definition row (i : nat) (m : matrix R) : list R := nth i m [].
Definition col (d : R) (j : nat) (m : matrix R) : list R :=
  map (fun r => nth j r d) m.
Definition at2 (d : R) (i j : nat) (m : matrix R) : R := nth j (row i m) d.
Definition at3 (d : R) (h i j : nat) (t : tensor3 R) : R := at2 d i j (nth h t []).

Definition shape2 (T D : nat) (m : matrix R) : Prop :=
  length m = T /\ Forall (fun r => length r = D) m.
Definition shape3 (H T D : nat) (t : tensor3 R) : Prop :=
  length t = H /\ Forall (shape2 T D) t.

(** The masks the theorems cover: none, or a [T x S] matrix (one entry per
    query and key). *)
Definition mask_shape (T S : nat) (m : option (matrix R)) : Prop :=
  match m with
  | Some m => shape2 T S m
  | None => True
  end.

Definition shape2b (T D : nat) (m : matrix R) : bool :=
  (length m =? T) && forallb (fun r => length r =? D) m.
Definition shape3b (H T D : nat) (t : tensor3 R) : bool :=
  (length t =? H) && forallb (shape2b T D) t.

(** [m.transpose(-2, -1)] *)
Definition transpose (d : R) (m : matrix R) : matrix R :=
  map (fun j => col d j m) (seq 0 (ncols m)).

Definition map2d {A B : Type} (f : A -> B) (m : list (list A)) : list (list B) :=
  map (map f) m.
Definition map3d {A B : Type} (f : A -> B) (t : list (list (list A)))
  : list (list (list B)) :=
  map (map2d f) t.

Definition zeros (T D : nat) : R -> matrix R := fun z => repeat (repeat z D) T.
End Tensors.


(** ** Tensor operations of the library *)

Section TensorOps.
Context {R : Type} {AR : Arith R}.

(** [a @ b] on matrices: entry [(i, j)] reduces row [i] of [a] against
    column [j] of [b]. *)
Definition matmul (a b : matrix R) : matrix R :=
  map (fun r => map (fun c => dotprod r c) (transpose zero b)) a.

(** [a @ b] on 3-D tensors: one matrix product per leading index. *)
Definition bmm (a b : tensor3 R) : tensor3 R := zip_with matmul a b.

(** [t.transpose(-2, -1)] on a 3-D tensor. *)
Definition transpose_last (t : tensor3 R) : tensor3 R := map (transpose zero) t.

(** Elementwise product of two tensors of one shape. *)
Definition mul3 (a b : tensor3 R) : tensor3 R :=
  zip_with (zip_with (zip_with mul)) a b.

(** [t.sum(dim=-1, keepdim=True)] *)
Definition sum_last (t : tensor3 R) : tensor3 R :=
  map (map (fun r => [rsum r])) t.

(** [a - s] where [s] has a last axis of size one, broadcast along it. *)
Definition sub_bcast_last (a s : tensor3 R) : tensor3 R :=
  zip_with (zip_with (fun r sr => map (fun x => sub x (hd zero sr)) r)) a s.

(** Index into an axis that broadcasting may have stretched from size one. *)
Definition bidx (n i : nat) : nat := if n =? 1 then 0 else i.

(** Entry [(i, j)] of a 2-D mask broadcast against a [_ x T x T] tensor. *)
Definition mask_at (m : matrix R) (i j : nat) : R :=
  let r := nth (bidx (length m) i) m [] in
  nth (bidx (length r) j) r one.

(** Whether a [T x S] mask is 0 at query [i] and key [j], read off the
    mask itself: [mask[i][j] == 0]. *)
Definition mask_zero (m : option (matrix R)) (i j : nat) : bool :=
  match m with
  | Some m => is_zero (nth j (nth i m []) one)
  | None => false
  end.

Definition indexed {A : Type} (l : list A) : list (nat * A) :=
  combine (seq 0 (length l)) l.

(** [t.masked_fill(m == 0, v)] *)
Definition masked_fill (t : tensor3 R) (m : matrix R) (v : R) : tensor3 R :=
  map (fun mat =>
         map (fun ir =>
                map (fun jx => if is_zero (mask_at m (fst ir) (fst jx))
                               then v else snd jx)
                    (indexed (snd ir)))
             (indexed mat))
      t.

(** Elementwise matrix arithmetic used by the layers. *)
Definition madd (a b : matrix R) : matrix R := zip_with (zip_with add) a b.
Definition msub (a b : matrix R) : matrix R := zip_with (zip_with sub) a b.
Definition mscale (c : R) (a : matrix R) : matrix R := map2d (mul c) a.

(** [m + b] with [b] a one-row matrix broadcast over the rows of [m]. *)
Definition add_rowvec (m b : matrix R) : matrix R :=
  map (fun r => zip_with add r (hd [] b)) m.

(** [g.sum(dim=0, keepdim=True)] *)
Definition colsum (g : matrix R) : matrix R :=
  [map (fun j => rsum (col zero j g)) (seq 0 (ncols g))].

Definition zeros_like (m : matrix R) : matrix R := map2d (fun _ => zero) m.

(** Matrices joined along the feature axis. *)
Definition hcat (ms : list (matrix R)) : matrix R :=
  map (fun t => concat (map (row t) ms)) (seq 0 (nrows (hd [] ms))).
End TensorOps.

(** ** The objects of one attention block *)

(** The eight Parameters the block owns, by the attribute that holds them. *)
Inductive pname : Type :=
| PW_q | Pb_q | PW_k | Pb_k | PW_v | Pb_v | PW_o | Pb_o.

(** The four Projections. *)
Inductive lname : Type :=
| Lq | Lk | Lv | Lout.

(** What the [X] of a Projection is bound to: the layer the caller passed to
    [forward], or the block's own Concat adapter. *)
Inductive xref : Type :=
| XInput
| XConcat.

Definition all_params : list pname :=
  [PW_q; Pb_q; PW_k; Pb_k; PW_v; Pb_v; PW_o; Pb_o].

Definition all_linears : list lname := [Lq; Lk; Lv; Lout].

Definition pname_eqb (p q : pname) : bool :=
  match p, q with
  | PW_q, PW_q | Pb_q, Pb_q | PW_k, PW_k | Pb_k, Pb_k
  | PW_v, PW_v | Pb_v, Pb_v | PW_o, PW_o | Pb_o, Pb_o => true
  | _, _ => false
  end.

Definition lname_eqb (p q : lname) : bool :=
  match p, q with
  | Lq, Lq | Lk, Lk | Lv, Lv | Lout, Lout => true
  | _, _ => false
  end.

Section Objects.
Context {R : Type}.

(** [layers.Input]: a value and its gradient accumulator.  The caller's
    input layer is seen through the same two attributes. *)
Record Input : Type := mkInput {
  output : matrix R;
  grad : matrix R
}.

(** [layers.Linear]: [X], [W] and [b] are references to other objects;
    [W] and [b] name Parameters of the block, they are not copies. *)
Record Linear : Type := mkLinear {
  X : option xref;
  W : pname;
  b : pname;
  loutput : matrix R;
  lgrad : matrix R
}.

(** [layers.Concat] over the per-head layers of one forward call. *)
Record Concat : Type := mkConcat {
  layers_list : list Input;
  coutput : matrix R;
  cgrad : matrix R
}.

(** The attributes of a [MultiHeadAttention] object, with the layer the
    Q, K and V Projections share as their [X]. *)
Record MultiHeadAttention : Type := mkMHA {
  d_model : Z;
  num_heads : Z;
  d_k : Z;
  params : pname -> Input;
  linears : lname -> Linear;
  x_layer : option Input;
  qh : option (tensor3 R);
  kh : option (tensor3 R);
  vh : option (tensor3 R);
  attn : option (tensor3 R);
  mask : option (matrix R);
  concat : option Concat
}.

Definition W_q (self : MultiHeadAttention) : Input := params self PW_q.
Definition b_q (self : MultiHeadAttention) : Input := params self Pb_q.
Definition W_k (self : MultiHeadAttention) : Input := params self PW_k.
Definition b_k (self : MultiHeadAttention) : Input := params self Pb_k.
Definition W_v (self : MultiHeadAttention) : Input := params self PW_v.
Definition b_v (self : MultiHeadAttention) : Input := params self Pb_v.
Definition W_o (self : MultiHeadAttention) : Input := params self PW_o.
Definition b_o (self : MultiHeadAttention) : Input := params self Pb_o.
Definition linear_q (self : MultiHeadAttention) : Linear := linears self Lq.
Definition linear_k (self : MultiHeadAttention) : Linear := linears self Lk.
Definition linear_v (self : MultiHeadAttention) : Linear := linears self Lv.
Definition linear_out (self : MultiHeadAttention) : Linear := linears self Lout.

(** Attribute assignment. *)
Definition set_params (f : pname -> Input) (s : MultiHeadAttention) :=
  mkMHA (d_model s) (num_heads s) (d_k s) f (linears s) (x_layer s)
        (qh s) (kh s) (vh s) (attn s) (mask s) (concat s).
Definition set_linears (f : lname -> Linear) (s : MultiHeadAttention) :=
  mkMHA (d_model s) (num_heads s) (d_k s) (params s) f (x_layer s)
        (qh s) (kh s) (vh s) (attn s) (mask s) (concat s).
Definition set_x_layer (v : option Input) (s : MultiHeadAttention) :=
  mkMHA (d_model s) (num_heads s) (d_k s) (params s) (linears s) v
        (qh s) (kh s) (vh s) (attn s) (mask s) (concat s).
Definition set_qh (v : option (tensor3 R)) (s : MultiHeadAttention) :=
  mkMHA (d_model s) (num_heads s) (d_k s) (params s) (linears s) (x_layer s)
        v (kh s) (vh s) (attn s) (mask s) (concat s).
Definition set_kh (v : option (tensor3 R)) (s : MultiHeadAttention) :=
  mkMHA (d_model s) (num_heads s) (d_k s) (params s) (linears s) (x_layer s)
        (qh s) v (vh s) (attn s) (mask s) (concat s).
Definition set_vh (v : option (tensor3 R)) (s : MultiHeadAttention) :=
  mkMHA (d_model s) (num_heads s) (d_k s) (params s) (linears s) (x_layer s)
        (qh s) (kh s) v (attn s) (mask s) (concat s).
Definition set_attn (v : option (tensor3 R)) (s : MultiHeadAttention) :=
  mkMHA (d_model s) (num_heads s) (d_k s) (params s) (linears s) (x_layer s)
        (qh s) (kh s) (vh s) v (mask s) (concat s).
Definition set_mask (v : option (matrix R)) (s : MultiHeadAttention) :=
  mkMHA (d_model s) (num_heads s) (d_k s) (params s) (linears s) (x_layer s)
        (qh s) (kh s) (vh s) (attn s) v (concat s).
Definition set_concat (v : option Concat) (s : MultiHeadAttention) :=
  mkMHA (d_model s) (num_heads s) (d_k s) (params s) (linears s) (x_layer s)
        (qh s) (kh s) (vh s) (attn s) (mask s) v.

(** Replace one object and leave the others. *)
Definition upd_param (p : pname) (v : Input) (s : MultiHeadAttention) :=
  set_params (fun q => if pname_eqb p q then v else params s q) s.
Definition upd_linear (n : lname) (v : Linear) (s : MultiHeadAttention) :=
  set_linears (fun q => if lname_eqb n q then v else linears s q) s.

Definition set_X (v : option xref) (l : Linear) : Linear :=
  mkLinear v (W l) (b l) (loutput l) (lgrad l).
Definition set_loutput (v : matrix R) (l : Linear) : Linear :=
  mkLinear (X l) (W l) (b l) v (lgrad l).
Definition set_lgrad (v : matrix R) (l : Linear) : Linear :=
  mkLinear (X l) (W l) (b l) (loutput l) v.
End Objects.

Arguments Input R : clear implicits.
Arguments Linear R : clear implicits.
Arguments Concat R : clear implicits.
Arguments MultiHeadAttention R : clear implicits.

(** ** The layers the block is built from ([from_scratch_transformer/layers.py]) *)

Section Layers.
Context {R : Type} {AR : Arith R}.

Definition tabulate (T D : nat) (g : nat -> nat -> R) : matrix R :=
  map (fun i => map (fun j => g i j) (seq 0 D)) (seq 0 T).

(** Modelled from the spec: the constructor of [Input] is not in the sources.
    A Parameter is "a mutable tensor with an associated gradient accumulator
    (same shape, initialized to none/zero)". *)
Definition Input_new (rows cols : nat) : Input R :=
  mkInput (zeros rows cols zero) (zeros rows cols zero).

(** Modelled from the spec: [Input.randomize] is not in the sources
    ("supports in-place random initialization").  The random draw is the
    argument [g], entry by entry; the shape stays. *)
Definition Input_randomize (g : nat -> nat -> R) (l : Input R) : Input R :=
  mkInput (tabulate (nrows (output l)) (ncols (output l)) g) (grad l).

(** Modelled from the spec: [Input.set] is not in the sources; it "holds a
    value". *)
Definition Input_set (t : matrix R) (l : Input R) : Input R :=
  mkInput t (grad l).

(** Modelled from the spec: the gradient accumulation of a layer is not in
    the sources; a Parameter "accumulates a gradient". *)
Definition accumulate_grad (g : matrix R) (l : Input R) : Input R :=
  mkInput (output l) (madd (grad l) g).

(** Modelled from the spec: [Input.step] is not in the sources; the
    "in-place update rule [value -= lr * grad]". *)
Definition Input_step (learning_rate : R) (l : Input R) : Input R :=
  mkInput (msub (output l) (mscale learning_rate (grad l))) (grad l).

(** Modelled from the spec: [Input.clear_grad] is not in the sources;
    it resets the gradient accumulator "to empty/zero". *)
Definition Input_clear_grad (l : Input R) : Input R :=
  mkInput (output l) (zeros_like (grad l)).

(** [X.output] for the [X] of a Projection. *)
Definition X_output (r : xref) (self : MultiHeadAttention R) : result (matrix R) :=
  match r with
  | XInput => l <- deref (x_layer self) ;; Ok (output l)
  | XConcat => c <- deref (concat self) ;; Ok (coutput c)
  end.

(** The gradient pushed back to the [X] of a Projection. *)
Definition X_accumulate (r : xref) (g : matrix R) (self : MultiHeadAttention R)
  : result (MultiHeadAttention R) :=
  match r with
  | XInput =>
      l <- deref (x_layer self) ;;
      Ok (set_x_layer (Some (accumulate_grad g l)) self)
  | XConcat =>
      c <- deref (concat self) ;;
      Ok (set_concat
            (Some (mkConcat (layers_list c) (coutput c) (madd (cgrad c) g)))
            self)
  end.

(** Modelled from the spec: [Linear.forward] is not in the sources.  It
    "computes [output = X . W + b] given bound [X]" (glossary: [y = xW + b])
    and caches the result. *)
Definition Linear_forward (n : lname) (self : MultiHeadAttention R)
  : result (MultiHeadAttention R) :=
  let l := linears self n in
  r <- deref (X l) ;;
  x <- X_output r self ;;
  let y := add_rowvec (matmul x (output (params self (W l))))
                      (output (params self (b l))) in
  Ok (upd_linear n (set_loutput y l) self).

(** Modelled from the spec: [Linear.backward] is not in the sources.  It
    "computes and stores gradient w.r.t. [X], [W], [b] from the Projection's
    own cached output-gradient": for [y = xW + b] these are [g . W^T],
    [x^T . g] and the column sums of [g], each accumulated on its owner. *)
Definition Linear_backward (n : lname) (self : MultiHeadAttention R)
  : result (MultiHeadAttention R) :=
  let l := linears self n in
  r <- deref (X l) ;;
  x <- X_output r self ;;
  let g := lgrad l in
  let gW := matmul (transpose zero x) g in
  let gX := matmul g (transpose zero (output (params self (W l)))) in
  let self := upd_param (W l) (accumulate_grad gW (params self (W l))) self in
  let self := upd_param (b l) (accumulate_grad (colsum g) (params self (b l))) self in
  X_accumulate r gX self.

(** [Linear.step] is not in the sources, and the specification leaves open
    what it does to the weight and the bias the Projection is bound to; it
    is therefore an argument of [step] below.  Two readings, neither taken
    as the program's: a Projection that owns no tensor to update, whose step
    changes nothing in the block, *)
Definition Linear_step_inert (n : lname) (learning_rate : R)
           (self : MultiHeadAttention R) : MultiHeadAttention R :=
  self.

(** and a Projection whose step forwards to the step of the weight and the
    bias it is bound to. *)
Definition Linear_step_delegating (n : lname) (learning_rate : R)
           (self : MultiHeadAttention R) : MultiHeadAttention R :=
  let l := linears self n in
  let self := upd_param (W l) (Input_step learning_rate (params self (W l))) self in
  upd_param (b l) (Input_step learning_rate (params self (b l))) self.

(** Modelled from the spec: [Linear.clear_grad] is not in the sources; it
    resets the Projection's gradient "to empty/zero". *)
Definition Linear_clear_grad (n : lname) (self : MultiHeadAttention R)
  : MultiHeadAttention R :=
  let l := linears self n in
  upd_linear n (set_lgrad (zeros_like (lgrad l)) l) self.

(** Modelled from the spec: the constructor of [Concat] is not in the
    sources.  The adapter keeps the list of its source layers; its gradient
    starts as zeros of the joined shape. *)
Definition Concat_new (layers : list (Input R)) : Concat R :=
  let joined := hcat (map output layers) in
  mkConcat layers (zeros_like joined) (zeros_like joined).

(** Modelled from the spec: [Concat.forward] is not in the sources; it
    "joins a sequence of layer outputs along the feature axis". *)
Definition Concat_forward (c : Concat R) : Concat R :=
  mkConcat (layers_list c) (hcat (map output (layers_list c))) (cgrad c).

(** The column block of [g] that belongs to each layer, in order. *)
Fixpoint fan_out (g : matrix R) (ls : list (Input R)) : list (Input R) :=
  match ls with
  | [] => []
  | l :: rest =>
      let w := ncols (output l) in
      accumulate_grad (map (firstn w) g) l :: fan_out (map (skipn w) g) rest
  end.

(** Modelled from the spec: [Concat.backward] is not in the sources; it
    "fans a single incoming gradient back out to each source layer's own
    [grad] field", "in the same order heads were concatenated". *)
Definition Concat_backward (c : Concat R) : Concat R :=
  mkConcat (fan_out (cgrad c) (layers_list c)) (coutput c) (cgrad c).

(** Modelled from the spec: [Concat.clear_grad] is not in the sources. *)
Definition Concat_clear_grad (c : Concat R) : Concat R :=
  mkConcat (layers_list c) (coutput c) (zeros_like (cgrad c)).
End Layers.

(** ** The class [MultiHeadAttention] *)

Section Attention.
Context {R : Type} {AR : Arith R} {SM : Softmax R}.

Local Abbreviation MHA := (MultiHeadAttention R).

(** [__init__].  The draws of the eight [randomize] calls are the argument
    [rnd].  Python's [%] raises on a zero divisor before the assertion is
    tested. *)
Definition init (d_model num_heads : Z) (rnd : pname -> nat -> nat -> R)
  : result MHA :=
  if (num_heads =? 0)%Z then Raise ZeroDivisionError
  else if negb (d_model mod num_heads =? 0)%Z then Raise AssertionError
  else
    let D := Z.to_nat d_model in
    let weight p := Input_randomize (rnd p) (Input_new D D) in
    let bias p := Input_randomize (rnd p) (Input_new 1 D) in
    Ok (mkMHA d_model num_heads (d_model / num_heads)
              (fun p => match p with
                        | PW_q | PW_k | PW_v | PW_o => weight p
                        | Pb_q | Pb_k | Pb_v | Pb_o => bias p
                        end)
              (fun n => match n with
                        | Lq => mkLinear None PW_q Pb_q [] []
                        | Lk => mkLinear None PW_k Pb_k [] []
                        | Lv => mkLinear None PW_v Pb_v [] []
                        | Lout => mkLinear None PW_o Pb_o [] []
                        end)
              None None None None None None None).

(** [row.view(num_heads, d_k)] on one row of the input. *)
Definition view_heads (H dk : nat) (r : list R) : matrix R :=
  map (fun h => firstn dk (skipn (h * dk) r)) (seq 0 H).

(** [split_heads]: [x.view(T, num_heads, d_k).transpose(0, 1)].  The view
    raises unless every row has [num_heads * d_k] entries. *)
Definition split_heads (self : MHA) (x : matrix R) : result (tensor3 R) :=
  let H := Z.to_nat (num_heads self) in
  let dk := Z.to_nat (d_k self) in
  if forallb (fun r => length r =? H * dk) x
  then Ok (map (fun h => map (fun r => nth h (view_heads H dk r) []) x) (seq 0 H))
  else Raise RuntimeError.

(** [combine_heads]: [x.transpose(0, 1).contiguous().view(T, d_model)] with
    [T = x.shape[1]].  The view raises unless the heads of a position add up
    to [d_model] entries. *)
Definition combine_heads (self : MHA) (x : tensor3 R) : result (matrix R) :=
  let T := nrows (hd [] x) in
  let rows := map (fun t => List.concat (map (row t) x)) (seq 0 T) in
  if forallb (fun r => length r =? Z.to_nat (d_model self)) rows
  then Ok rows
  else Raise RuntimeError.

(** The scores before and after masking, as [scaled_dot_product_attention]
    computes them. *)
Definition scores (self : MHA) (q k : tensor3 R) : tensor3 R :=
  map3d (fun s => div s (sqrt (of_int (d_k self)))) (bmm q (transpose_last k)).

Definition masked_scores (self : MHA) (q k : tensor3 R) (mask : option (matrix R))
  : tensor3 R :=
  match mask with
  | Some m => masked_fill (scores self q k) m neg_inf
  | None => scores self q k
  end.

(** [torch.softmax(scores, dim=-1)] *)
Definition softmax_last (t : tensor3 R) : tensor3 R := map (map softmax_row) t.

Definition scaled_dot_product_attention
           (self : MHA) (q k v : tensor3 R) (mask : option (matrix R))
  : tensor3 R * tensor3 R :=
  let attn := softmax_last (masked_scores self q k mask) in
  let output := bmm attn v in
  (output, attn).

(** [self.linear_q.X = x_layer] and its two siblings: the Projection now
    refers to the caller's layer. *)
Definition bind_input (n : lname) (x : Input R) (self : MHA) : MHA :=
  upd_linear n (set_X (Some XInput) (linears self n)) (set_x_layer (Some x) self).

(** The loop of [forward] that wraps each head of [attn_out] in a fresh
    [Input]. *)
Definition head_layers (self : MHA) (attn_out : tensor3 R) : list (Input R) :=
  map (fun h => let t := nth h attn_out [] in
                Input_set t (Input_new (nrows t) (ncols t)))
      (seq 0 (Z.to_nat (num_heads self))).

(** [forward] returns the output Projection and the attention weights; the
    Projection is an attribute of the block, so the result here is the new
    state of the block and the weights. *)
Definition forward (self : MHA) (x : Input R) (mask : option (matrix R))
  : result (MHA * tensor3 R) :=
  self <- Linear_forward Lq (bind_input Lq x self) ;;
  let q := loutput (linear_q self) in
  self <- Linear_forward Lk (bind_input Lk x self) ;;
  let k := loutput (linear_k self) in
  self <- Linear_forward Lv (bind_input Lv x self) ;;
  let v := loutput (linear_v self) in
  qh' <- split_heads self q ;;
  let self := set_qh (Some qh') self in
  kh' <- split_heads self k ;;
  let self := set_kh (Some kh') self in
  vh' <- split_heads self v ;;
  let self := set_vh (Some vh') self in
  let self := set_mask mask self in
  let '(attn_out, attn') := scaled_dot_product_attention self qh' kh' vh' mask in
  let self := set_attn (Some attn') self in
  let c := Concat_forward (Concat_new (head_layers self attn_out)) in
  let self := set_concat (Some c) self in
  let self := upd_linear Lout (set_X (Some XConcat) (linear_out self)) self in
  self <- Linear_forward Lout self ;;
  Ok (self, attn').
End Attention.

(** ** The backward pass and the parameter update *)

Section Backward.
Context {R : Type} {AR : Arith R}.

Local Abbreviation MHA := (MultiHeadAttention R).

(** The local variables of [backward], each as the source computes it. *)
Definition grad_attn (stacked vh : tensor3 R) : tensor3 R :=
  bmm stacked (transpose_last vh).

Definition grad_vh (attn stacked : tensor3 R) : tensor3 R :=
  bmm (transpose_last attn) stacked.

Definition sum_grad (grad_attn attn : tensor3 R) : tensor3 R :=
  sum_last (mul3 grad_attn attn).

Definition grad_scores (attn grad_attn : tensor3 R) (mask : option (matrix R))
  : tensor3 R :=
  let g := mul3 attn (sub_bcast_last grad_attn (sum_grad grad_attn attn)) in
  match mask with
  | Some m => masked_fill g m zero
  | None => g
  end.

Definition factor (self : MHA) : R := div one (sqrt (of_int (d_k self))).

Definition grad_qh (self : MHA) (grad_scores kh : tensor3 R) : tensor3 R :=
  map3d (fun x => mul x (factor self)) (bmm grad_scores kh).

Definition grad_kh (self : MHA) (grad_scores qh : tensor3 R) : tensor3 R :=
  map3d (fun x => mul x (factor self)) (bmm (transpose_last grad_scores) qh).

(** [self.linear_q.grad = grad_q]: an assignment, not an accumulation. *)
Definition set_linear_grad (n : lname) (g : matrix R) (self : MHA) : MHA :=
  upd_linear n (set_lgrad g (linears self n)) self.

(** What [backward] does once the output Projection has run its own
    backward: from [self.concat.backward()] to the end. *)
Definition backward_rest (self : MHA) : result MHA :=
  c <- deref (concat self) ;;
  let c := Concat_backward c in
  let self := set_concat (Some c) self in
  let head_grads := map grad (layers_list c) in
  let stacked := head_grads in
  vh' <- deref (vh self) ;;
  attn' <- deref (attn self) ;;
  let ga := grad_attn stacked vh' in
  let gv := grad_vh attn' stacked in
  let gs := grad_scores attn' ga (mask self) in
  kh' <- deref (kh self) ;;
  let gq := grad_qh self gs kh' in
  qh' <- deref (qh self) ;;
  let gk := grad_kh self gs qh' in
  grad_q <- combine_heads self gq ;;
  grad_k <- combine_heads self gk ;;
  grad_v <- combine_heads self gv ;;
  let self := set_linear_grad Lq grad_q self in
  let self := set_linear_grad Lk grad_k self in
  let self := set_linear_grad Lv grad_v self in
  self <- Linear_backward Lv self ;;
  self <- Linear_backward Lk self ;;
  Linear_backward Lq self.

Definition backward (self : MHA) : result MHA :=
  self <- Linear_backward Lout self ;;
  backward_rest self.

(** [W_k.step(learning_rate)] and its siblings. *)
Definition param_step (p : pname) (learning_rate : R) (self : MHA) : MHA :=
  upd_param p (Input_step learning_rate (params self p)) self.

(** [step].  The [step] of a Projection is in [layers.py]; it is the
    argument [Linear_step]. *)
Definition step (Linear_step : lname -> R -> MHA -> MHA)
           (learning_rate : R) (self : MHA) : MHA :=
  let self := Linear_step Lq learning_rate self in
  let self := Linear_step Lk learning_rate self in
  let self := Linear_step Lv learning_rate self in
  let self := Linear_step Lout learning_rate self in
  let self := param_step PW_k learning_rate self in
  let self := param_step PW_q learning_rate self in
  let self := param_step PW_v learning_rate self in
  let self := param_step PW_o learning_rate self in
  let self := param_step Pb_k learning_rate self in
  let self := param_step Pb_q learning_rate self in
  let self := param_step Pb_v learning_rate self in
  param_step Pb_o learning_rate self.

Definition param_clear_grad (p : pname) (self : MHA) : MHA :=
  upd_param p (Input_clear_grad (params self p)) self.

(** [clear_grad]; [self.concat.clear_grad()] dereferences the cached adapter. *)
Definition clear_grad (self : MHA) : result MHA :=
  let self := Linear_clear_grad Lq self in
  let self := Linear_clear_grad Lk self in
  let self := Linear_clear_grad Lv self in
  let self := Linear_clear_grad Lout self in
  c <- deref (concat self) ;;
  let self := set_concat (Some (Concat_clear_grad c)) self in
  let self := param_clear_grad PW_k self in
  let self := param_clear_grad PW_q self in
  let self := param_clear_grad PW_v self in
  let self := param_clear_grad PW_o self in
  let self := param_clear_grad Pb_k self in
  let self := param_clear_grad Pb_q self in
  let self := param_clear_grad Pb_v self in
  Ok (param_clear_grad Pb_o self).

(** The caller's deposit of the upstream gradient on the output Projection. *)
Definition deposit (g : matrix R) (self : MHA) : MHA :=
  set_linear_grad Lout g self.
End Backward.

(** * Properties *)

(** ** Lists *)

Section ListFacts.
Context {A B : Type}.

Lemma nth_map_lt (f : A -> B) (l : list A) (d : A) (d' : B) (n : nat) :
  n < length l -> nth n (map f l) d' = f (nth n l d).
Proof.
  intros Hn. rewrite (nth_indep _ d' (f d)); [apply map_nth|].
  now rewrite length_map.
Qed.

Lemma map_nth_seq (l : list A) (d : A) :
  map (fun i => nth i l d) (seq 0 (length l)) = l.
Proof.
  induction l as [|a l IH]; [reflexivity|].
  simpl. f_equal. rewrite <- seq_shift, map_map. exact IH.
Qed.

Lemma map_seq_ext (f g : nat -> B) (a n : nat) :
  (forall i, a <= i < a + n -> f i = g i) ->
  map f (seq a n) = map g (seq a n).
Proof.
  intros H. apply map_ext_in. intros i Hi. apply in_seq in Hi. now apply H.
Qed.

Lemma firstn_plus (a c : nat) (l : list A) :
  firstn (a + c) l = firstn a l ++ firstn c (skipn a l).
Proof.
  revert l. induction a as [|a IH]; intros l; [reflexivity|].
  destruct l as [|x l]; simpl.
  - now rewrite firstn_nil.
  - now rewrite IH.
Qed.

Lemma forallb_length_eq (n : nat) (l : list (list A)) :
  forallb (fun r => length r =? n) l = true <-> Forall (fun r => length r = n) l.
Proof.
  rewrite forallb_forall, Forall_forall.
  split; intros H x Hx; specialize (H x Hx); now apply Nat.eqb_eq.
Qed.
End ListFacts.

(** ** Splitting and merging heads *)

Section Heads.
Context {R : Type}.

Lemma concat_view_heads_firstn (H dk : nat) (r : list R) :
  List.concat (view_heads H dk r) = firstn (H * dk) r.
Proof.
  unfold view_heads. induction H as [|H IH]; [reflexivity|].
  rewrite seq_S, map_app, concat_app, IH. simpl.
  rewrite app_nil_r, (Nat.add_comm dk), firstn_plus. reflexivity.
Qed.

Lemma concat_view_heads (H dk : nat) (r : list R) :
  length r = H * dk -> List.concat (view_heads H dk r) = r.
Proof.
  intros Hr. rewrite concat_view_heads_firstn, <- Hr. apply firstn_all.
Qed.

Lemma length_view_heads (H dk : nat) (r : list R) :
  length (view_heads H dk r) = H.
Proof. unfold view_heads. now rewrite length_map, length_seq. Qed.

(** The configuration a successful construction leaves: the heads tile the
    model width. *)
Definition valid_config (self : MultiHeadAttention R) : Prop :=
  (0 < num_heads self)%Z /\ (0 <= d_k self)%Z /\
  d_model self = (num_heads self * d_k self)%Z.

Lemma valid_config_width (self : MultiHeadAttention R) :
  valid_config self ->
  Z.to_nat (d_model self) = Z.to_nat (num_heads self) * Z.to_nat (d_k self)
  /\ 0 < Z.to_nat (num_heads self).
Proof.
  intros (Hh & Hk & Hd). rewrite Hd. split; [|lia].
  rewrite Z2Nat.inj_mul; lia.
Qed.

Lemma split_heads_ok (self : MultiHeadAttention R) (x : matrix R) (T : nat) :
  valid_config self ->
  shape2 T (Z.to_nat (d_model self)) x ->
  split_heads self x =
  Ok (map (fun h => map (fun r => nth h (view_heads (Z.to_nat (num_heads self))
                                                    (Z.to_nat (d_k self)) r) []) x)
          (seq 0 (Z.to_nat (num_heads self)))).
Proof.
  intros Hv [_ Hrows]. unfold split_heads.
  destruct (valid_config_width Hv) as [Hw _]. rewrite <- Hw.
  apply forallb_length_eq in Hrows. now rewrite Hrows.
Qed.
End Heads.

Section HeadsRoundTrip.
Context {R : Type}.

Lemma shape2_row (T D : nat) (x : matrix R) (t : nat) :
  shape2 T D x -> t < T -> length (nth t x []) = D.
Proof.
  intros [HT Hrows] Ht. rewrite Forall_forall in Hrows.
  apply Hrows, nth_In. lia.
Qed.

(** Reading position [t] of every head of the split and joining the pieces
    gives row [t] back. *)
Lemma merge_split_row (H dk : nat) (x : matrix R) (t : nat) :
  t < length x ->
  length (nth t x []) = H * dk ->
  List.concat
    (map (row t)
         (map (fun h => map (fun r => nth h (view_heads H dk r) []) x) (seq 0 H)))
  = nth t x [].
Proof.
  intros Ht Hlen. rewrite map_map. unfold row.
  rewrite (map_seq_ext _ (fun h => nth h (view_heads H dk (nth t x [])) [])).
  - replace (seq 0 H) with (seq 0 (length (view_heads H dk (nth t x []))))
      by now rewrite length_view_heads.
    rewrite map_nth_seq. now apply concat_view_heads.
  - intros h _.
    now apply (nth_map_lt (fun r => nth h (view_heads H dk r) []) x [] []).
Qed.

(** C5: [combine_heads (split_heads x)] returns [x] itself, for every [x] of
    shape [T x d_model] with [T >= 1], on a block whose heads tile the model
    width: both calls succeed and no value changes. *)
Theorem combine_heads_split_heads
        (self : MultiHeadAttention R) (x : matrix R) (T : nat) :
  valid_config self ->
  1 <= T ->
  shape2 T (Z.to_nat (d_model self)) x ->
  (xh <- split_heads self x ;; combine_heads self xh) = Ok x.
Proof.
  intros Hv HT Hx. rewrite (split_heads_ok Hv Hx). simpl.
  destruct (valid_config_width Hv) as [Hw Hpos].
  set (H := Z.to_nat (num_heads self)) in *.
  set (dk := Z.to_nat (d_k self)) in *.
  unfold combine_heads.
  assert (Hrows :
    map (fun t => List.concat
                    (map (row t)
                         (map (fun h => map (fun r => nth h (view_heads H dk r) []) x)
                              (seq 0 H))))
        (seq 0 (length x)) = x).
  { rewrite (map_seq_ext _ (fun t => nth t x [])).
    - apply map_nth_seq.
    - intros t Ht. apply merge_split_row; [lia|].
      rewrite <- Hw. apply (shape2_row Hx). destruct Hx as [HT' _]. lia. }
  assert (Hhd :
    nrows (hd [] (map (fun h => map (fun r => nth h (view_heads H dk r) []) x)
                      (seq 0 H))) = length x).
  { destruct H as [|H']; [lia|]. simpl. unfold nrows. now rewrite length_map. }
  rewrite Hhd, Hrows.
  destruct Hx as [_ Hall]. apply forallb_length_eq in Hall. now rewrite Hall.
Qed.
End HeadsRoundTrip.

(** ** Construction *)

Section Construction.
Context {R : Type} {AR : Arith R}.

Lemma shape2_tabulate (T D : nat) (g : nat -> nat -> R) :
  shape2 T D (tabulate T D g).
Proof.
  unfold shape2, tabulate. split.
  - now rewrite length_map, length_seq.
  - apply Forall_forall. intros r Hr. apply in_map_iff in Hr.
    destruct Hr as (i & <- & _). now rewrite length_map, length_seq.
Qed.

Lemma nrows_zeros (T D : nat) (z : R) : nrows (zeros T D z) = T.
Proof. unfold nrows, zeros. apply repeat_length. Qed.

Lemma ncols_zeros (T D : nat) (z : R) : 0 < T -> ncols (zeros T D z) = D.
Proof.
  unfold ncols, zeros. destruct T as [|T]; [lia|]. intros _. simpl.
  apply repeat_length.
Qed.

Lemma shape2_randomized (T D : nat) (g : nat -> nat -> R) :
  0 < T -> shape2 T D (output (Input_randomize g (Input_new T D))).
Proof.
  intros HT. unfold Input_randomize, Input_new. simpl.
  rewrite nrows_zeros, ncols_zeros by assumption. apply shape2_tabulate.
Qed.

(** The block a successful construction returns. *)
Definition fresh (self : MultiHeadAttention R) (dm nh : Z) : Prop :=
  d_model self = dm /\ num_heads self = nh /\ d_k self = (dm / nh)%Z /\
  (forall p, In p [PW_q; PW_k; PW_v; PW_o] ->
             shape2 (Z.to_nat dm) (Z.to_nat dm) (output (params self p))) /\
  (forall p, In p [Pb_q; Pb_k; Pb_v; Pb_o] ->
             shape2 1 (Z.to_nat dm) (output (params self p))) /\
  (W (linear_q self) = PW_q /\ b (linear_q self) = Pb_q) /\
  (W (linear_k self) = PW_k /\ b (linear_k self) = Pb_k) /\
  (W (linear_v self) = PW_v /\ b (linear_v self) = Pb_v) /\
  (W (linear_out self) = PW_o /\ b (linear_out self) = Pb_o) /\
  (forall n, X (linears self n) = None) /\
  qh self = None /\ kh self = None /\ vh self = None /\
  attn self = None /\ mask self = None /\ concat self = None.

Lemma init_divisible (dm nh : Z) (rnd : pname -> nat -> nat -> R) :
  (0 < dm)%Z -> (0 < nh)%Z -> (dm mod nh = 0)%Z ->
  exists self, init dm nh rnd = Ok self /\ fresh self dm nh.
Proof.
  intros Hd Hn Hm. unfold init.
  destruct (Z.eqb_spec nh 0) as [->|_]; [lia|].
  rewrite Hm. simpl. eexists. split; [reflexivity|].
  unfold fresh, linear_q, linear_k, linear_v, linear_out. simpl.
  assert (HD : 0 < Z.to_nat dm) by lia.
  do 3 (split; [reflexivity|]).
  split.
  { intros p Hp. simpl in Hp.
    destruct Hp as [<-|[<-|[<-|[<-|[]]]]]; now apply shape2_randomized. }
  split.
  { intros p Hp. simpl in Hp.
    destruct Hp as [<-|[<-|[<-|[<-|[]]]]]; apply shape2_randomized; lia. }
  do 4 (split; [split; reflexivity|]).
  split; [intros n; now destruct n|].
  repeat split; reflexivity.
Qed.

Lemma init_not_divisible (dm nh : Z) (rnd : pname -> nat -> nat -> R) :
  (0 < nh)%Z -> (dm mod nh <> 0)%Z -> init dm nh rnd = Raise AssertionError.
Proof.
  intros Hn Hm. unfold init.
  destruct (Z.eqb_spec nh 0) as [->|_]; [lia|].
  destruct (Z.eqb_spec (dm mod nh) 0) as [E|_]; [contradiction|reflexivity].
Qed.

(** C7: with positive [d_model] and [num_heads], construction fails exactly
    when [d_model] is not a multiple of [num_heads], and then by the assertion;
    when it succeeds, [d_k] is [d_model / num_heads], the four weights are
    [d_model x d_model], the four biases [1 x d_model], each Projection is
    bound to its own weight and bias and to no input, and nothing is cached. *)
Theorem init_fails_iff_not_divisible
        (dm nh : Z) (rnd : pname -> nat -> nat -> R) :
  (0 < dm)%Z -> (0 < nh)%Z ->
  ((exists e, init dm nh rnd = Raise e) <-> (dm mod nh <> 0)%Z) /\
  ((dm mod nh <> 0)%Z -> init dm nh rnd = Raise AssertionError) /\
  ((dm mod nh = 0)%Z ->
   exists self, init dm nh rnd = Ok self /\ fresh self dm nh).
Proof.
  intros Hd Hn. split; [split|split].
  - intros [e He] Hm.
    destruct (init_divisible rnd Hd Hn Hm) as (self & Hs & _). congruence.
  - intros Hm. exists AssertionError. now apply init_not_divisible.
  - now apply init_not_divisible.
  - now apply init_divisible.
Qed.

Lemma fresh_valid_config (self : MultiHeadAttention R) (dm nh : Z) :
  (0 < dm)%Z -> (0 < nh)%Z -> (dm mod nh = 0)%Z ->
  fresh self dm nh -> valid_config self.
Proof.
  intros Hd Hn Hm (E1 & E2 & E3 & _). unfold valid_config.
  rewrite E1, E2, E3. repeat split; [lia| |].
  - apply Z.div_pos; lia.
  - apply Z.div_exact; lia.
Qed.
End Construction.

(** ** Calls before the first [forward] *)

Section BeforeForward.
Context {R : Type} {AR : Arith R}.

Lemma concat_upd_param (p : pname) (v : Input R) (self : MultiHeadAttention R) :
  concat (upd_param p v self) = concat self.
Proof. reflexivity. Qed.

Lemma clear_grad_no_concat (self : MultiHeadAttention R) :
  concat self = None -> clear_grad self = Raise AttributeError.
Proof. intros H. unfold clear_grad. simpl. now rewrite H. Qed.

Lemma backward_rest_no_concat (self : MultiHeadAttention R) :
  concat self = None -> backward_rest self = Raise AttributeError.
Proof. intros H. unfold backward_rest. now rewrite H. Qed.

(** Whatever the output Projection is bound to, [backward] cannot get past
    the missing adapter. *)
Lemma backward_no_concat (self : MultiHeadAttention R) :
  concat self = None -> backward self = Raise AttributeError.
Proof.
  intros H. unfold backward, Linear_backward.
  destruct (X (linears self Lout)) as [[|]|]; simpl; try reflexivity.
  - destruct (x_layer self) as [l|]; simpl; [|reflexivity].
    apply backward_rest_no_concat. exact H.
  - now rewrite H.
Qed.

(** C9: on a block that construction has just returned, [clear_grad] and
    [backward] both raise (an attribute of [None] is read: no adapter is
    cached yet); neither completes. *)
Theorem fresh_block_clear_grad_backward_raise
        (dm nh : Z) (rnd : pname -> nat -> nat -> R) (self : MultiHeadAttention R) :
  init dm nh rnd = Ok self ->
  clear_grad self = Raise AttributeError /\ backward self = Raise AttributeError.
Proof.
  intros Hinit.
  assert (Hc : concat self = None).
  { unfold init in Hinit.
    destruct (nh =? 0)%Z; [discriminate|].
    destruct (negb (dm mod nh =? 0)%Z); [discriminate|].
    injection Hinit as <-. reflexivity. }
  split; [now apply clear_grad_no_concat | now apply backward_no_concat].
Qed.
End BeforeForward.

(** ** The forward pass as a function of what it reads *)

Section ForwardValues.
Context {R : Type} {AR : Arith R} {SM : Softmax R}.

(** What Projection [n] computes on the input [xin]. *)
Definition proj (self : MultiHeadAttention R) (n : lname) (xin : matrix R) : matrix R :=
  add_rowvec (matmul xin (output (params self (W (linears self n)))))
             (output (params self (b (linears self n)))).

(** The two results of [forward] (the output of the output Projection and
    the attention weights) from the configuration, the Parameters and the
    input alone. *)
Definition forward_values (self : MultiHeadAttention R) (xin : matrix R)
           (mask : option (matrix R)) : result (matrix R * tensor3 R) :=
  qh' <- split_heads self (proj self Lq xin) ;;
  kh' <- split_heads self (proj self Lk xin) ;;
  vh' <- split_heads self (proj self Lv xin) ;;
  let '(attn_out, attn') := scaled_dot_product_attention self qh' kh' vh' mask in
  Ok (proj self Lout (hcat (map output (head_layers self attn_out))), attn').

Lemma Linear_forward_bind_input
      (n : lname) (x : Input R) (self : MultiHeadAttention R) :
  Linear_forward n (bind_input n x self) =
  Ok (upd_linear n (set_loutput (proj self n (output x))
                                (set_X (Some XInput) (linears self n)))
                 (bind_input n x self)).
Proof.
  unfold Linear_forward, bind_input, proj. destruct n; reflexivity.
Qed.
End ForwardValues.

Section ForwardSpec.
Context {R : Type} {AR : Arith R} {SM : Softmax R}.

Lemma split_heads_config (s s' : MultiHeadAttention R) (x : matrix R) :
  num_heads s = num_heads s' -> d_k s = d_k s' ->
  split_heads s x = split_heads s' x.
Proof. intros H1 H2. unfold split_heads. now rewrite H1, H2. Qed.

Lemma Linear_forward_concat (s : MultiHeadAttention R) (c : Concat R) :
  X (linears s Lout) = Some XConcat -> concat s = Some c ->
  Linear_forward Lout s =
  Ok (upd_linear Lout (set_loutput (proj s Lout (coutput c)) (linears s Lout)) s).
Proof.
  intros HX Hc. unfold Linear_forward. rewrite HX. simpl. rewrite Hc. reflexivity.
Qed.

(** What does not change across [forward]: the configuration, the eight
    Parameters (value and gradient), and the Parameters and the gradient slot
    each Projection holds. *)
Definition forward_frame (self s' : MultiHeadAttention R) : Prop :=
  d_model s' = d_model self /\ num_heads s' = num_heads self /\
  d_k s' = d_k self /\
  (forall p, params s' p = params self p) /\
  (forall n, W (linears s' n) = W (linears self n) /\
             b (linears s' n) = b (linears self n) /\
             lgrad (linears s' n) = lgrad (linears self n)).

(** The block after a [forward] whose three splits gave [qh'], [kh'], [vh']. *)
Definition forward_post (self : MultiHeadAttention R) (x : Input R)
           (mask' : option (matrix R)) (qh' kh' vh' : tensor3 R)
           (s' : MultiHeadAttention R) : Prop :=
  let oa := scaled_dot_product_attention self qh' kh' vh' mask' in
  let c := Concat_forward (Concat_new (head_layers self (fst oa))) in
  forward_frame self s' /\
  (X (linear_q s') = Some XInput /\ X (linear_k s') = Some XInput /\
   X (linear_v s') = Some XInput /\ X (linear_out s') = Some XConcat) /\
  (loutput (linear_q s') = proj self Lq (output x) /\
   loutput (linear_k s') = proj self Lk (output x) /\
   loutput (linear_v s') = proj self Lv (output x) /\
   loutput (linear_out s') = proj self Lout (coutput c)) /\
  x_layer s' = Some x /\
  (qh s' = Some qh' /\ kh s' = Some kh' /\ vh s' = Some vh' /\
   attn s' = Some (snd oa) /\ mask s' = mask' /\ concat s' = Some c).

Ltac fold_split self n x :=
  match goal with
  | |- context [split_heads ?s ?q] =>
      rewrite (split_heads_config s self q) by reflexivity;
      change q with (proj self n (output x))
  end.

(** [forward] raises exactly when one of its three [split_heads] does, and
    otherwise returns the attention weights and the block described by
    [forward_post]. *)
Lemma forward_spec (self : MultiHeadAttention R) (x : Input R)
      (mask' : option (matrix R)) :
  match split_heads self (proj self Lq (output x)),
        split_heads self (proj self Lk (output x)),
        split_heads self (proj self Lv (output x)) with
  | Ok qh', Ok kh', Ok vh' =>
      exists s',
        forward self x mask' =
        Ok (s', snd (scaled_dot_product_attention self qh' kh' vh' mask'))
        /\ forward_post self x mask' qh' kh' vh' s'
  | Raise e, _, _ => forward self x mask' = Raise e
  | _, Raise e, _ => forward self x mask' = Raise e
  | _, _, Raise e => forward self x mask' = Raise e
  end.
Proof.
  unfold forward.
  do 3 (rewrite Linear_forward_bind_input; cbn [bind]).
  fold_split self Lq x.
  destruct (split_heads self (proj self Lq (output x))) as [qh'|e];
    cbn [bind]; [|reflexivity].
  fold_split self Lk x.
  destruct (split_heads self (proj self Lk (output x))) as [kh'|e];
    cbn [bind]; [|reflexivity].
  fold_split self Lv x.
  destruct (split_heads self (proj self Lv (output x))) as [vh'|e];
    cbn [bind]; [|reflexivity].
  unfold scaled_dot_product_attention at 1. cbv zeta.
  match goal with
  | |- context [Linear_forward Lout ?s] =>
      rewrite (@Linear_forward_concat s _ eq_refl eq_refl)
  end.
  cbn [bind]. eexists. split; [reflexivity|].
  unfold forward_post, forward_frame.
  split; [|repeat split; reflexivity].
  do 3 (split; [reflexivity|]).
  split; [intros p; reflexivity|].
  intros n. destruct n; repeat split; reflexivity.
Qed.
End ForwardSpec.

(* Statements about [forward] are kept out of the automatic search for
   implicit arguments, which would unfold it. *)
Unset Implicit Arguments.

Section ForwardFacts.
Context {R : Type} {AR : Arith R} {SM : Softmax R}.

Lemma forward_inv (self s' : MultiHeadAttention R) (x : Input R)
      (mask' : option (matrix R)) (a : tensor3 R) :
  forward self x mask' = Ok (s', a) ->
  exists qh' kh' vh',
    split_heads self (proj self Lq (output x)) = Ok qh' /\
    split_heads self (proj self Lk (output x)) = Ok kh' /\
    split_heads self (proj self Lv (output x)) = Ok vh' /\
    a = snd (scaled_dot_product_attention self qh' kh' vh' mask') /\
    forward_post self x mask' qh' kh' vh' s'.
Proof.
  intros Hf. pose proof (forward_spec self x mask') as Hs.
  destruct (split_heads self (proj self Lq (output x))) as [qh'|e1].
  2:{ assert (Hr : forward self x mask' = Raise e1).
      { destruct (split_heads self (proj self Lk (output x)));
          destruct (split_heads self (proj self Lv (output x))); exact Hs. }
      rewrite Hr in Hf. discriminate Hf. }
  destruct (split_heads self (proj self Lk (output x))) as [kh'|e2].
  2:{ assert (Hr : forward self x mask' = Raise e2).
      { destruct (split_heads self (proj self Lv (output x))); exact Hs. }
      rewrite Hr in Hf. discriminate Hf. }
  destruct (split_heads self (proj self Lv (output x))) as [vh'|e3].
  2:{ rewrite Hs in Hf. discriminate Hf. }
  destruct Hs as (s'' & Hf' & Hpost).
  rewrite Hf' in Hf. injection Hf as <- <-.
  exists qh', kh', vh'.
  do 4 (split; [reflexivity|]). exact Hpost.
Qed.

(** A successful [forward] leaves the block in the frame of where it started. *)
Lemma forward_keeps_frame (self s' : MultiHeadAttention R) (x : Input R)
      (mask' : option (matrix R)) (a : tensor3 R) :
  forward self x mask' = Ok (s', a) -> forward_frame self s'.
Proof.
  intros Hf.
  destruct (forward_inv self s' x mask' a Hf) as (q & k & v & _ & _ & _ & _ & Hpost).
  exact (proj1 Hpost).
Qed.

Lemma forward_ok (self : MultiHeadAttention R) (x : Input R)
      (mask' : option (matrix R)) (qh' kh' vh' : tensor3 R) :
  split_heads self (proj self Lq (output x)) = Ok qh' ->
  split_heads self (proj self Lk (output x)) = Ok kh' ->
  split_heads self (proj self Lv (output x)) = Ok vh' ->
  exists s',
    forward self x mask' =
    Ok (s', snd (scaled_dot_product_attention self qh' kh' vh' mask'))
    /\ forward_post self x mask' qh' kh' vh' s'.
Proof.
  intros H1 H2 H3. pose proof (forward_spec self x mask') as Hs.
  now rewrite H1, H2, H3 in Hs.
Qed.




(** C10: a [forward] call that returns leaves the configuration
    ([d_model], [num_heads], [d_k]) and each of the eight Parameters as they
    were; of a Projection it keeps the weight and bias it is bound to and its
    gradient slot.  What it writes is the cache ([qh], [kh], [vh], [attn],
    [mask], [concat]) and the input and output of the four Projections. *)
Theorem forward_changes_no_parameter
        (self s' : MultiHeadAttention R) (x : Input R)
        (mask' : option (matrix R)) (a : tensor3 R) :
  forward self x mask' = Ok (s', a) ->
  d_model s' = d_model self /\ num_heads s' = num_heads self /\
  d_k s' = d_k self /\
  (forall p, In p all_params -> params s' p = params self p) /\
  (forall n, W (linears s' n) = W (linears self n) /\
             b (linears s' n) = b (linears self n) /\
             lgrad (linears s' n) = lgrad (linears self n)).
Proof.
  intros Hf. destruct (forward_inv _ _ _ _ _ Hf) as (q & k & v & _ & _ & _ & _ & Hpost).
  destruct Hpost as ((H1 & H2 & H3 & H4 & H5) & _).
  repeat split; try assumption; try apply H5. intros p _. apply H4.
Qed.


End ForwardFacts.

(** ** Shapes *)

Section Shapes.
Context {R : Type} {AR : Arith R}.

Lemma Forall_zip_with {A B C : Type} (f : A -> B -> C)
      (PA : A -> Prop) (PB : B -> Prop) (PC : C -> Prop) :
  (forall x y, PA x -> PB y -> PC (f x y)) ->
  forall l1 l2, Forall PA l1 -> Forall PB l2 -> Forall PC (zip_with f l1 l2).
Proof.
  intros Hf l1. induction l1 as [|x l1 IH]; intros l2 H1 H2; [constructor|].
  destruct l2 as [|y l2]; [constructor|].
  inversion H1; inversion H2; subst. unfold zip_with. simpl. constructor.
  - now apply Hf.
  - now apply IH.
Qed.

Lemma length_zip_with {A B C : Type} (f : A -> B -> C) (l1 : list A) (l2 : list B) :
  length (zip_with f l1 l2) = Nat.min (length l1) (length l2).
Proof. unfold zip_with. now rewrite length_map, length_combine. Qed.

Lemma ncols_shape2 (T D : nat) (m : matrix R) :
  shape2 T D m -> 0 < T -> ncols m = D.
Proof.
  intros [HT Hall] Hpos. unfold ncols. destruct m as [|r m]; simpl in *; [lia|].
  now inversion Hall.
Qed.

Lemma shape2_transpose (T D : nat) (m : matrix R) :
  shape2 T D m -> 0 < T -> shape2 D T (transpose zero m).
Proof.
  intros Hm Hpos. unfold transpose. rewrite (ncols_shape2 T D m Hm Hpos).
  destruct Hm as [HT _]. split.
  - now rewrite length_map, length_seq.
  - apply Forall_forall. intros c Hc. apply in_map_iff in Hc.
    destruct Hc as (j & <- & _). unfold col. now rewrite length_map.
Qed.

Lemma shape2_matmul (T K D : nat) (a c : matrix R) :
  length a = T -> shape2 K D c -> 0 < K -> shape2 T D (matmul a c).
Proof.
  intros Ha Hc Hpos. unfold matmul. split.
  - now rewrite length_map.
  - apply Forall_forall. intros r Hr. apply in_map_iff in Hr.
    destruct Hr as (r0 & <- & _). rewrite length_map.
    apply (shape2_transpose K D c Hc Hpos).
Qed.

Lemma shape2_add_rowvec (T D : nat) (m c : matrix R) :
  shape2 T D m -> shape2 1 D c -> shape2 T D (add_rowvec m c).
Proof.
  intros [HT Hall] Hc. unfold add_rowvec. split.
  - now rewrite length_map.
  - assert (Hhd : length (hd [] c) = D) by (apply (ncols_shape2 1 D c Hc); lia).
    apply Forall_forall. intros r Hr. apply in_map_iff in Hr.
    destruct Hr as (r0 & <- & Hin). rewrite length_zip_with, Hhd.
    rewrite Forall_forall in Hall. rewrite (Hall r0 Hin). apply Nat.min_id.
Qed.

Lemma shape3_bmm (H T K K' D : nat) (a c : tensor3 R) :
  shape3 H T K a -> shape3 H K' D c -> 0 < K' -> shape3 H T D (bmm a c).
Proof.
  intros [Ha Halla] [Hc Hallc] Hpos. unfold bmm. split.
  - rewrite length_zip_with, Ha, Hc. apply Nat.min_id.
  - apply (Forall_zip_with matmul (shape2 T K) (shape2 K' D)); try assumption.
    intros x y [Hx _] Hy. now apply (shape2_matmul T K' D).
Qed.

Lemma shape3_transpose_last (H T D : nat) (t : tensor3 R) :
  shape3 H T D t -> 0 < T -> shape3 H D T (transpose_last t).
Proof.
  intros [Ht Hall] Hpos. unfold transpose_last. split.
  - now rewrite length_map.
  - apply Forall_forall. intros m Hm. apply in_map_iff in Hm.
    destruct Hm as (m0 & <- & Hin). rewrite Forall_forall in Hall.
    apply shape2_transpose; auto.
Qed.

Lemma shape2_map (T D : nat) (g : list R -> list R) (m : matrix R) :
  (forall r, length (g r) = length r) ->
  shape2 T D m -> shape2 T D (map g m).
Proof.
  intros Hg [HT Hall]. split.
  - now rewrite length_map.
  - apply Forall_forall. intros r Hr. apply in_map_iff in Hr.
    destruct Hr as (r0 & <- & Hin). rewrite Forall_forall in Hall.
    rewrite Hg. now apply Hall.
Qed.

Lemma shape3_map (H T D : nat) (g : matrix R -> matrix R) (t : tensor3 R) :
  (forall m, shape2 T D m -> shape2 T D (g m)) ->
  shape3 H T D t -> shape3 H T D (map g t).
Proof.
  intros Hg [Ht Hall]. split.
  - now rewrite length_map.
  - apply Forall_forall. intros m Hm. apply in_map_iff in Hm.
    destruct Hm as (m0 & <- & Hin). rewrite Forall_forall in Hall. auto.
Qed.

Lemma shape3_map3d (H T D : nat) (f : R -> R) (t : tensor3 R) :
  shape3 H T D t -> shape3 H T D (map3d f t).
Proof.
  intros Ht. unfold map3d. apply shape3_map; [|exact Ht].
  intros m Hm. unfold map2d. apply shape2_map; [|exact Hm].
  intros r. apply length_map.
Qed.

Lemma length_indexed {A : Type} (l : list A) : length (indexed l) = length l.
Proof. unfold indexed. rewrite length_combine, length_seq. apply Nat.min_id. Qed.

Lemma shape3_masked_fill (H T D : nat) (t : tensor3 R) (m : matrix R) (v : R) :
  shape3 H T D t -> shape3 H T D (masked_fill t m v).
Proof.
  intros Ht. unfold masked_fill. apply shape3_map; [|exact Ht].
  intros mat [HT Hall]. split.
  - now rewrite length_map, length_indexed.
  - apply Forall_forall. intros r Hr. apply in_map_iff in Hr.
    destruct Hr as ([i r0] & <- & Hin). simpl.
    rewrite length_map, length_indexed. rewrite Forall_forall in Hall.
    apply Hall. unfold indexed in Hin. now apply in_combine_r in Hin.
Qed.
End Shapes.

Section ForwardShapes.
Context {R : Type} {AR : Arith R} {SM : Softmax R}.

Lemma length_concat_uniform {A : Type} (k : nat) (l : list (list A)) :
  Forall (fun r => length r = k) l -> length (List.concat l) = length l * k.
Proof.
  induction 1 as [|r l Hr _ IH]; [reflexivity|].
  simpl. rewrite length_app, IH, Hr. reflexivity.
Qed.

Lemma length_view_head (H dk h : nat) (r : list R) :
  length r = H * dk -> h < H -> length (nth h (view_heads H dk r) []) = dk.
Proof.
  intros Hr Hh. unfold view_heads.
  rewrite (nth_map_lt (fun h => firstn dk (skipn (h * dk) r)) (seq 0 H) 0 []
                      (n := h))
    by (rewrite length_seq; exact Hh).
  rewrite seq_nth by exact Hh. simpl.
  rewrite length_firstn, length_skipn, Hr. nia.
Qed.

Lemma split_heads_shape (self : MultiHeadAttention R) (x : matrix R) (T : nat) :
  valid_config self ->
  shape2 T (Z.to_nat (d_model self)) x ->
  exists t, split_heads self x = Ok t /\
            shape3 (Z.to_nat (num_heads self)) T (Z.to_nat (d_k self)) t.
Proof.
  intros Hv Hx. rewrite (split_heads_ok Hv Hx). eexists. split; [reflexivity|].
  destruct (valid_config_width Hv) as [Hw _]. destruct Hx as [HT Hall].
  split.
  - now rewrite length_map, length_seq.
  - apply Forall_forall. intros m Hm. apply in_map_iff in Hm.
    destruct Hm as (h & <- & Hh). apply in_seq in Hh. split.
    + now rewrite length_map.
    + apply Forall_forall. intros r Hr. apply in_map_iff in Hr.
      destruct Hr as (r0 & <- & Hin). rewrite Forall_forall in Hall.
      apply length_view_head; [|lia]. rewrite <- Hw. now apply Hall.
Qed.

Lemma head_layers_outputs (self : MultiHeadAttention R) (t : tensor3 R) :
  length t = Z.to_nat (num_heads self) ->
  map output (head_layers self t) = t.
Proof.
  intros Ht. unfold head_layers. rewrite map_map. simpl. rewrite <- Ht.
  apply map_nth_seq.
Qed.

Lemma shape2_hcat (H T D : nat) (t : tensor3 R) :
  shape3 H T D t -> 0 < H -> shape2 T (H * D) (hcat t).
Proof.
  intros [Ht Hall] Hpos. unfold hcat.
  assert (Hhd : nrows (hd [] t) = T).
  { destruct t as [|m t]; simpl in *; [lia|]. inversion Hall as [|? ? [Hm _] _].
    exact Hm. }
  rewrite Hhd. split.
  - now rewrite length_map, length_seq.
  - apply Forall_forall. intros r Hr. apply in_map_iff in Hr.
    destruct Hr as (i & <- & Hi). apply in_seq in Hi.
    rewrite (length_concat_uniform D), length_map, Ht; [reflexivity|].
    apply Forall_forall. intros r Hr. apply in_map_iff in Hr.
    destruct Hr as (m & <- & Hm). rewrite Forall_forall in Hall.
    apply (shape2_row (Hall m Hm)). lia.
Qed.

(** A block on which [forward] can run: the heads tile the model width and
    each Projection is bound to a [d_model x d_model] weight and a
    [1 x d_model] bias. *)
Definition well_formed (self : MultiHeadAttention R) : Prop :=
  valid_config self /\ (0 < d_k self)%Z /\
  forall n,
    shape2 (Z.to_nat (d_model self)) (Z.to_nat (d_model self))
           (output (params self (W (linears self n)))) /\
    shape2 1 (Z.to_nat (d_model self))
           (output (params self (b (linears self n)))).

Lemma well_formed_dims (self : MultiHeadAttention R) :
  well_formed self ->
  Z.to_nat (d_model self) = Z.to_nat (num_heads self) * Z.to_nat (d_k self) /\
  0 < Z.to_nat (num_heads self) /\ 0 < Z.to_nat (d_k self) /\
  0 < Z.to_nat (d_model self).
Proof.
  intros (Hv & Hk & _). destruct (valid_config_width Hv) as [Hw Hh].
  repeat split; try assumption; try lia.
Qed.

Lemma shape2_proj (self : MultiHeadAttention R) (n : lname) (xin : matrix R) (T : nat) :
  well_formed self ->
  shape2 T (Z.to_nat (d_model self)) xin ->
  shape2 T (Z.to_nat (d_model self)) (proj self n xin).
Proof.
  intros Hwf Hx. destruct (well_formed_dims self Hwf) as (_ & _ & _ & HD).
  destruct Hwf as (_ & _ & Hp). destruct (Hp n) as [HW Hb]. unfold proj.
  apply shape2_add_rowvec; [|exact Hb].
  apply (shape2_matmul T (Z.to_nat (d_model self))); try assumption.
  apply Hx.
Qed.

Lemma init_well_formed (dm nh : Z) (rnd : pname -> nat -> nat -> R)
      (self : MultiHeadAttention R) :
  (0 < dm)%Z -> (0 < nh)%Z -> (dm mod nh = 0)%Z ->
  init dm nh rnd = Ok self -> well_formed self.
Proof.
  intros Hd Hn Hm Hinit.
  destruct (init_divisible rnd Hd Hn Hm) as (s & Hs & Hfresh).
  rewrite Hinit in Hs. injection Hs as <-.
  split; [now apply (fresh_valid_config Hd Hn Hm)|].
  destruct Hfresh as (E1 & E2 & E3 & HW & Hb & Hq & Hk & Hv & Ho & _).
  split.
  - rewrite E3. apply Z.div_str_pos. split; [lia|].
    apply Z.divide_pos_le; [lia|]. apply Z.mod_divide; [lia|exact Hm].
  - rewrite E1. unfold linear_q, linear_k, linear_v, linear_out in *.
    intros n. destruct n.
    + destruct Hq as [-> ->]. split; [apply HW|apply Hb]; simpl; auto.
    + destruct Hk as [-> ->]. split; [apply HW|apply Hb]; simpl; auto.
    + destruct Hv as [-> ->]. split; [apply HW|apply Hb]; simpl; auto.
    + destruct Ho as [-> ->]. split; [apply HW|apply Hb]; simpl; auto 6.
Qed.
End ForwardShapes.

Section ShapeLaw.
Context {R : Type} {AR : Arith R} {SM : Softmax R}.

(** The only fact about the library's softmax the shape law uses. *)
Definition softmax_keeps_length : Prop :=
  forall r : list R, length (softmax_row r) = length r.

Lemma attention_shapes (self : MultiHeadAttention R) (q k v : tensor3 R)
      (m : option (matrix R)) (H T dk : nat) :
  softmax_keeps_length -> 0 < T -> 0 < dk ->
  shape3 H T dk q -> shape3 H T dk k -> shape3 H T dk v ->
  shape3 H T dk (fst (scaled_dot_product_attention self q k v m)) /\
  shape3 H T T (snd (scaled_dot_product_attention self q k v m)).
Proof.
  intros Hsoft HT Hdk Hq Hk Hv.
  assert (Hs : shape3 H T T (scores self q k)).
  { unfold scores. apply shape3_map3d.
    apply (shape3_bmm H T dk dk T); try assumption.
    now apply shape3_transpose_last. }
  assert (Hm : shape3 H T T (masked_scores self q k m)).
  { unfold masked_scores. destruct m; [now apply shape3_masked_fill|exact Hs]. }
  assert (Ha : shape3 H T T (softmax_last (masked_scores self q k m))).
  { unfold softmax_last. apply shape3_map; [|exact Hm].
    intros mat Hmat. apply shape2_map; [exact Hsoft|exact Hmat]. }
  unfold scaled_dot_product_attention. simpl. split; [|exact Ha].
  now apply (shape3_bmm H T T T dk).
Qed.

(** C6: on a well-formed block (construction returns one), for every input
    layer whose value is [T x d_model] with [T >= 1], without a mask or with
    a [T x T] mask, [forward] returns, the output of the output Projection
    is [T x d_model] and the attention weights are [num_heads x T x T]; the
    library's softmax is only asked to keep the length of a row. *)
Theorem forward_shape_law
        (self : MultiHeadAttention R) (x : Input R) (mask' : option (matrix R))
        (T : nat) :
  well_formed self ->
  softmax_keeps_length ->
  1 <= T ->
  shape2 T (Z.to_nat (d_model self)) (output x) ->
  mask_shape T T mask' ->
  exists s' a,
    forward self x mask' = Ok (s', a) /\
    shape2 T (Z.to_nat (d_model self)) (loutput (linear_out s')) /\
    shape3 (Z.to_nat (num_heads self)) T T a.
Proof.
  intros Hwf Hsoft HT Hx _.
  destruct (well_formed_dims self Hwf) as (Hw & HH & Hdk & HD).
  assert (Hv : valid_config self) by apply Hwf.
  destruct (split_heads_shape self _ T Hv (shape2_proj self Lq _ T Hwf Hx))
    as (q & Eq & Sq).
  destruct (split_heads_shape self _ T Hv (shape2_proj self Lk _ T Hwf Hx))
    as (k & Ek & Sk).
  destruct (split_heads_shape self _ T Hv (shape2_proj self Lv _ T Hwf Hx))
    as (v & Ev & Sv).
  destruct (forward_ok self x mask' q k v Eq Ek Ev) as (s' & Hf & Hpost).
  destruct (attention_shapes self q k v mask' _ T _ Hsoft HT Hdk Sq Sk Sv)
    as [Sout Sattn].
  exists s', (snd (scaled_dot_product_attention self q k v mask')).
  split; [exact Hf|]. split; [|exact Sattn].
  destruct Hpost as (_ & _ & (_ & _ & _ & ->) & _).
  apply shape2_proj; [exact Hwf|]. simpl.
  rewrite head_layers_outputs by apply Sout.
  rewrite Hw. apply shape2_hcat; assumption.
Qed.
End ShapeLaw.

(** ** Entries of the tensor operations *)

Section Entries.
Context {R : Type} {AR : Arith R}.

Lemma nth_zip_with {A B C : Type} (f : A -> B -> C) (l1 : list A) (l2 : list B)
      (i : nat) (d1 : A) (d2 : B) (d : C) :
  i < length l1 -> i < length l2 ->
  nth i (zip_with f l1 l2) d = f (nth i l1 d1) (nth i l2 d2).
Proof.
  revert l2 i. induction l1 as [|x l1 IH]; intros l2 i H1 H2; simpl in *; [lia|].
  destruct l2 as [|y l2]; simpl in *; [lia|].
  destruct i as [|i]; [reflexivity|]. unfold zip_with in *. simpl.
  apply IH; lia.
Qed.

Lemma nth_indexed {A : Type} (l : list A) (i : nat) (d : A) :
  i < length l -> nth i (indexed l) (0, d) = (i, nth i l d).
Proof.
  intros Hi. unfold indexed. rewrite combine_nth by now rewrite length_seq.
  now rewrite seq_nth.
Qed.

Lemma nth_col (m : matrix R) (i j : nat) (d : R) :
  i < length m -> nth i (col d j m) d = nth j (nth i m []) d.
Proof.
  intros Hi. unfold col.
  exact (nth_map_lt (fun r => nth j r d) m [] d Hi).
Qed.

Lemma nth_transpose (m : matrix R) (j : nat) :
  j < ncols m -> nth j (transpose zero m) [] = col zero j m.
Proof.
  intros Hj. unfold transpose.
  rewrite (nth_map_lt (fun j => col zero j m) (seq 0 (ncols m)) 0 [] (n := j))
    by now rewrite length_seq.
  now rewrite seq_nth.
Qed.

(** Column [j] of the transpose is row [j]. *)
Lemma col_transpose (T D : nat) (m : matrix R) (j : nat) :
  shape2 T D m -> j < T -> col zero j (transpose zero m) = nth j m [].
Proof.
  intros Hm Hj. assert (HT : 0 < T) by lia.
  rewrite <- (map_nth_seq (nth j m []) zero).
  rewrite (shape2_row Hm Hj).
  unfold col at 1, transpose. rewrite map_map, (ncols_shape2 T D m Hm HT).
  apply map_seq_ext. intros c _. apply nth_col. destruct Hm as [-> _]. exact Hj.
Qed.

(** Entry [(i, j)] of a matrix product. *)
Lemma nth_matmul (a c : matrix R) (i j : nat) (d : R) :
  i < length a -> j < ncols c ->
  nth j (nth i (matmul a c) []) d = dotprod (nth i a []) (col zero j c).
Proof.
  intros Hi Hj. unfold matmul.
  rewrite (nth_map_lt (fun r => map (fun c0 => dotprod r c0) (transpose zero c))
                      a [] [] Hi).
  assert (Hlen : j < length (transpose zero c))
    by (unfold transpose; now rewrite length_map, length_seq).
  rewrite (nth_map_lt (fun c0 => dotprod (nth i a []) c0) (transpose zero c)
                      [] d Hlen).
  now rewrite nth_transpose.
Qed.

Lemma nth_bmm (a c : tensor3 R) (h : nat) :
  h < length a -> h < length c ->
  nth h (bmm a c) [] = matmul (nth h a []) (nth h c []).
Proof. intros Ha Hc. unfold bmm. now apply nth_zip_with. Qed.

Lemma shape3_nth (H T D : nat) (t : tensor3 R) (h : nat) :
  shape3 H T D t -> h < H -> shape2 T D (nth h t []).
Proof.
  intros [Ht Hall] Hh. rewrite Forall_forall in Hall. apply Hall, nth_In. lia.
Qed.

Lemma nth_map3d (f : R -> R) (t : tensor3 R) (H T D h i j : nat) (d : R) :
  shape3 H T D t -> h < H -> i < T -> j < D ->
  nth j (nth i (nth h (map3d f t) []) []) (f d) =
  f (nth j (nth i (nth h t []) []) d).
Proof.
  intros Ht Hh Hi Hj. pose proof (shape3_nth H T D t h Ht Hh) as Hm.
  destruct Ht as [Hlen _]. unfold map3d.
  rewrite (nth_map_lt (map2d f) t [] [] (n := h)) by lia.
  destruct Hm as [Hrows _]. unfold map2d.
  rewrite (nth_map_lt (map f) (nth h t []) [] [] (n := i)) by lia.
  apply map_nth.
Qed.

(** Entry [(h, i, j)] of [masked_fill]. *)
Lemma nth_masked_fill (t : tensor3 R) (m : matrix R) (v : R)
      (H T D h i j : nat) (d : R) :
  shape3 H T D t -> h < H -> i < T -> j < D ->
  nth j (nth i (nth h (masked_fill t m v) []) []) d =
  if is_zero (mask_at m i j) then v else nth j (nth i (nth h t []) []) d.
Proof.
  intros Ht Hh Hi Hj. pose proof (shape3_nth H T D t h Ht Hh) as Hm.
  pose proof (shape2_row Hm Hi) as Hr.
  destruct Ht as [Hlen _]. destruct Hm as [Hrows _]. unfold masked_fill.
  rewrite (nth_map_lt _ t [] [] (n := h)) by lia.
  rewrite (nth_map_lt _ (indexed (nth h t [])) (0, []) [] (n := i))
    by (rewrite length_indexed; lia).
  rewrite nth_indexed by lia. simpl.
  rewrite (nth_map_lt _ (indexed (nth i (nth h t []) [])) (0, d) d (n := j))
    by (rewrite length_indexed; lia).
  rewrite nth_indexed by lia. reflexivity.
Qed.
End Entries.

(** ** Scaled dot-product attention *)

Section AttentionSpec.
Context {R : Type} {AR : Arith R} {SM : Softmax R}.

(** Whether the mask forbids key [j] for query [i]. *)
Definition masked (m : option (matrix R)) (i j : nat) : bool :=
  match m with
  | Some m => is_zero (mask_at m i j)
  | None => false
  end.



(** What the masking relies on in [torch.softmax]: an entry at negative
    infinity gets weight zero, in a row that has an entry which is not
    negative infinity. *)
Definition softmax_drops_neg_inf : Prop :=
  forall (r : list R) (j : nat),
    j < length r -> nth j r zero = neg_inf ->
    (exists j', j' < length r /\ nth j' r zero <> neg_inf) ->
    nth j (softmax_row r) zero = zero.

End AttentionSpec.

(** ** The gradients of the backward pass, entry by entry *)

Section BackwardEntries.
Context {R : Type} {AR : Arith R}.

(** [(a . c^T)[h][i][j]] reduces row [i] of [a] against row [j] of [c]. *)
Lemma bmm_transpose_r_entry (a c : tensor3 R) (H T T' K h i j : nat) (d : R) :
  shape3 H T K a -> shape3 H T' K c -> 0 < T' -> 0 < K ->
  h < H -> i < T -> j < T' ->
  nth j (nth i (nth h (bmm a (transpose_last c)) []) []) d =
  dotprod (nth i (nth h a []) []) (nth j (nth h c []) []).
Proof.
  intros Ha Hc HT' HK Hh Hi Hj.
  assert (Hct : shape3 H K T' (transpose_last c))
    by now apply shape3_transpose_last.
  pose proof (shape3_nth H T K a h Ha Hh) as Hah.
  pose proof (shape3_nth H T' K c h Hc Hh) as Hch.
  pose proof (shape3_nth H K T' _ h Hct Hh) as Hcth.
  rewrite nth_bmm by (destruct Ha, Hct; lia).
  rewrite nth_matmul.
  - f_equal. unfold transpose_last.
    rewrite (nth_map_lt (transpose zero) c [] [] (n := h))
      by (destruct Hc; lia).
    now apply (col_transpose T' K).
  - destruct Hah as [-> _]. exact Hi.
  - rewrite (ncols_shape2 K T' _ Hcth HK). exact Hj.
Qed.

(** [(a^T . c)[h][j][e]] reduces column [j] of [a] against column [e] of [c]. *)
Lemma bmm_transpose_l_entry (a c : tensor3 R) (H T K D h j e : nat) (d : R) :
  shape3 H T K a -> shape3 H T D c -> 0 < T ->
  h < H -> j < K -> e < D ->
  nth e (nth j (nth h (bmm (transpose_last a) c) []) []) d =
  dotprod (col zero j (nth h a [])) (col zero e (nth h c [])).
Proof.
  intros Ha Hc HT Hh Hj He.
  assert (Hat : shape3 H K T (transpose_last a))
    by now apply shape3_transpose_last.
  pose proof (shape3_nth H T K a h Ha Hh) as Hah.
  pose proof (shape3_nth H T D c h Hc Hh) as Hch.
  pose proof (shape3_nth H K T _ h Hat Hh) as Hath.
  rewrite nth_bmm by (destruct Hat, Hc; lia).
  rewrite nth_matmul.
  - f_equal. unfold transpose_last.
    rewrite (nth_map_lt (transpose zero) a [] [] (n := h))
      by (destruct Ha; lia).
    apply nth_transpose. now rewrite (ncols_shape2 T K _ Hah HT).
  - destruct Hath as [-> _]. exact Hj.
  - now rewrite (ncols_shape2 T D _ Hch HT).
Qed.

(** [(a . c)[h][i][e]] reduces row [i] of [a] against column [e] of [c]. *)
Lemma bmm_entry (a c : tensor3 R) (H T K D h i e : nat) (d : R) :
  shape3 H T K a -> shape3 H K D c -> 0 < K ->
  h < H -> i < T -> e < D ->
  nth e (nth i (nth h (bmm a c) []) []) d =
  dotprod (nth i (nth h a []) []) (col zero e (nth h c [])).
Proof.
  intros Ha Hc HK Hh Hi He.
  pose proof (shape3_nth H T K a h Ha Hh) as Hah.
  pose proof (shape3_nth H K D c h Hc Hh) as Hch.
  rewrite nth_bmm by (destruct Ha, Hc; lia).
  apply nth_matmul.
  - destruct Hah as [-> _]. exact Hi.
  - now rewrite (ncols_shape2 K D _ Hch HK).
Qed.

Lemma shape3_row (H T D : nat) (t : tensor3 R) (h i : nat) :
  shape3 H T D t -> h < H -> i < T ->
  length (nth h t []) = T /\ length (nth i (nth h t []) []) = D.
Proof.
  intros Ht Hh Hi. pose proof (shape3_nth H T D t h Ht Hh) as Hm.
  split; [apply Hm|]. now apply (shape2_row Hm).
Qed.

Lemma mul3_row (a c : tensor3 R) (H T D h i : nat) :
  shape3 H T D a -> shape3 H T D c -> h < H -> i < T ->
  nth i (nth h (mul3 a c) []) [] =
  zip_with mul (nth i (nth h a []) []) (nth i (nth h c []) []).
Proof.
  intros Ha Hc Hh Hi.
  destruct (shape3_row H T D a h i Ha Hh Hi) as [La _].
  destruct (shape3_row H T D c h i Hc Hh Hi) as [Lc _].
  unfold mul3.
  rewrite (nth_zip_with _ a c h [] [] []) by (destruct Ha, Hc; lia).
  now rewrite (nth_zip_with _ _ _ i [] [] []) by lia.
Qed.

Lemma shape3_mul3 (a c : tensor3 R) (H T D : nat) :
  shape3 H T D a -> shape3 H T D c -> shape3 H T D (mul3 a c).
Proof.
  intros [La Ha] [Lc Hc]. unfold mul3. split.
  - rewrite length_zip_with. lia.
  - apply (Forall_zip_with _ (shape2 T D) (shape2 T D)); try assumption.
    intros x y [Lx Hx] [Ly Hy]. split.
    + rewrite length_zip_with. lia.
    + apply (Forall_zip_with _ (fun r => length r = D) (fun r => length r = D));
        try assumption.
      intros r s Hr Hs. rewrite length_zip_with. lia.
Qed.

Lemma sum_last_row (t : tensor3 R) (H T D h i : nat) :
  shape3 H T D t -> h < H -> i < T ->
  nth i (nth h (sum_last t) []) [] = [rsum (nth i (nth h t []) [])].
Proof.
  intros Ht Hh Hi. destruct (shape3_row H T D t h i Ht Hh Hi) as [Lt _].
  unfold sum_last.
  rewrite (nth_map_lt _ t [] [] (n := h)) by (destruct Ht; lia).
  now rewrite (nth_map_lt _ (nth h t []) [] [] (n := i)) by lia.
Qed.

Lemma shape3_sum_last (t : tensor3 R) (H T D : nat) :
  shape3 H T D t -> shape3 H T 1 (sum_last t).
Proof.
  intros Ht. unfold sum_last. destruct Ht as [Lt Hall]. split.
  - now rewrite length_map.
  - apply Forall_forall. intros m Hm. apply in_map_iff in Hm.
    destruct Hm as (m0 & <- & Hin). rewrite Forall_forall in Hall.
    destruct (Hall m0 Hin) as [Lm _]. split.
    + now rewrite length_map.
    + apply Forall_forall. intros r Hr. apply in_map_iff in Hr.
      now destruct Hr as (r0 & <- & _).
Qed.

Lemma sub_bcast_last_row (a s : tensor3 R) (H T D h i : nat) :
  shape3 H T D a -> shape3 H T 1 s -> h < H -> i < T ->
  nth i (nth h (sub_bcast_last a s) []) [] =
  map (fun x => sub x (hd zero (nth i (nth h s []) []))) (nth i (nth h a []) []).
Proof.
  intros Ha Hs Hh Hi.
  destruct (shape3_row H T D a h i Ha Hh Hi) as [La _].
  destruct (shape3_row H T 1 s h i Hs Hh Hi) as [Ls _].
  unfold sub_bcast_last.
  rewrite (nth_zip_with _ a s h [] [] []) by (destruct Ha, Hs; lia).
  now rewrite (nth_zip_with _ _ _ i [] [] []) by lia.
Qed.

Lemma shape3_sub_bcast_last (a s : tensor3 R) (H T D : nat) :
  shape3 H T D a -> shape3 H T 1 s -> shape3 H T D (sub_bcast_last a s).
Proof.
  intros [La Ha] [Ls Hs]. unfold sub_bcast_last. split.
  - rewrite length_zip_with. lia.
  - apply (Forall_zip_with _ (shape2 T D) (shape2 T 1)); try assumption.
    intros x y [Lx Hx] [Ly Hy]. split.
    + rewrite length_zip_with. lia.
    + apply (Forall_zip_with _ (fun r => length r = D) (fun r => length r = 1));
        try assumption.
      intros r s' Hr _. now rewrite length_map.
Qed.
End BackwardEntries.

Section BackwardSpec.
Context {R : Type} {AR : Arith R}.

(** Entry [(h, i, j)] of [grad_scores], with the mask read through
    [mask_at]. *)
Lemma grad_scores_entry
        (attn' ga : tensor3 R) (mask' : option (matrix R)) (H T h i j : nat) :
  shape3 H T T attn' -> shape3 H T T ga ->
  h < H -> i < T -> j < T ->
  nth j (nth i (nth h (grad_scores attn' ga mask') []) []) zero =
  if masked mask' i j then zero
  else mul (nth j (nth i (nth h attn' []) []) zero)
           (sub (nth j (nth i (nth h ga []) []) zero)
                (rsum (zip_with mul (nth i (nth h ga []) [])
                                    (nth i (nth h attn' []) [])))).
Proof.
  intros Ha Hg Hh Hi Hj.
  assert (Hsum : shape3 H T 1 (sum_grad ga attn')).
  { unfold sum_grad. apply (shape3_sum_last _ H T T). now apply shape3_mul3. }
  assert (Hsub : shape3 H T T (sub_bcast_last ga (sum_grad ga attn')))
    by now apply shape3_sub_bcast_last.
  assert (Hg0 : shape3 H T T (mul3 attn' (sub_bcast_last ga (sum_grad ga attn'))))
    by now apply shape3_mul3.
  destruct (shape3_row H T T attn' h i Ha Hh Hi) as [_ Lar].
  destruct (shape3_row H T T ga h i Hg Hh Hi) as [_ Lgr].
  assert (Hentry :
    nth j (nth i (nth h (mul3 attn' (sub_bcast_last ga (sum_grad ga attn'))) [])
                 []) zero =
    mul (nth j (nth i (nth h attn' []) []) zero)
        (sub (nth j (nth i (nth h ga []) []) zero)
             (rsum (zip_with mul (nth i (nth h ga []) [])
                                 (nth i (nth h attn' []) []))))).
  { rewrite (mul3_row _ _ H T T h i Ha Hsub Hh Hi).
    rewrite (sub_bcast_last_row _ _ H T T h i Hg Hsum Hh Hi).
    unfold sum_grad.
    rewrite (sum_last_row _ H T T h i (shape3_mul3 _ _ H T T Hg Ha) Hh Hi).
    rewrite (mul3_row _ _ H T T h i Hg Ha Hh Hi). simpl.
    rewrite (nth_zip_with mul _ _ j zero zero zero)
      by (rewrite ?length_map; lia).
    f_equal.
    exact (nth_map_lt (fun x => sub x _) (nth i (nth h ga []) []) zero zero
                      (eq_ind_r (fun n => j < n) Hj Lgr)). }
  unfold grad_scores, masked. destruct mask' as [m|].
  - rewrite (nth_masked_fill _ m zero H T T h i j zero Hg0 Hh Hi Hj).
    now rewrite Hentry.
  - exact Hentry.
Qed.

(** The four matrix products of [backward] with the factor the source
    multiplies by, [1.0 / sqrt(d_k)]. *)
Lemma backward_products
      (self : MultiHeadAttention R) (stacked qh' kh' vh' attn' gs : tensor3 R)
      (H T dk : nat) :
  0 < T -> 0 < dk ->
  shape3 H T dk stacked -> shape3 H T dk qh' -> shape3 H T dk kh' ->
  shape3 H T dk vh' -> shape3 H T T attn' -> shape3 H T T gs ->
  (forall h i j, h < H -> i < T -> j < T ->
     nth j (nth i (nth h (grad_attn stacked vh') []) []) zero =
     dotprod (nth i (nth h stacked []) []) (nth j (nth h vh' []) [])) /\
  (forall h j e, h < H -> j < T -> e < dk ->
     nth e (nth j (nth h (grad_vh attn' stacked) []) []) zero =
     dotprod (col zero j (nth h attn' [])) (col zero e (nth h stacked []))) /\
  (forall h i e, h < H -> i < T -> e < dk ->
     nth e (nth i (nth h (grad_qh self gs kh') []) []) zero =
     mul (dotprod (nth i (nth h gs []) []) (col zero e (nth h kh' [])))
         (factor self)) /\
  (forall h j e, h < H -> j < T -> e < dk ->
     nth e (nth j (nth h (grad_kh self gs qh') []) []) zero =
     mul (dotprod (col zero j (nth h gs [])) (col zero e (nth h qh' [])))
         (factor self)).
Proof.
  intros HT Hdk Hst Hq Hk Hv Ha Hgs.
  split; [|split; [|split]].
  - intros h i j Hh Hi Hj. unfold grad_attn.
    now apply (bmm_transpose_r_entry stacked vh' H T T dk).
  - intros h j e Hh Hj He. unfold grad_vh.
    now apply (bmm_transpose_l_entry attn' stacked H T T dk).
  - intros h i e Hh Hi He. unfold grad_qh.
    set (f := fun x => mul x (factor self)).
    assert (Hb : shape3 H T dk (bmm gs kh'))
      by now apply (shape3_bmm H T T T dk).
    assert (Lr : length (nth i (nth h (map3d f (bmm gs kh')) []) []) = dk).
    { now apply (shape3_row H T dk _ h i (shape3_map3d H T dk f _ Hb)). }
    rewrite (nth_indep _ zero (f zero)) by lia.
    rewrite (nth_map3d f _ H T dk h i e zero Hb Hh Hi He). unfold f. f_equal.
    now apply (bmm_entry gs kh' H T T dk).
  - intros h j e Hh Hj He. unfold grad_kh.
    set (f := fun x => mul x (factor self)).
    assert (Hb : shape3 H T dk (bmm (transpose_last gs) qh')).
    { apply (shape3_bmm H T T T dk); try assumption.
      now apply shape3_transpose_last. }
    assert (Lr : length (nth j (nth h (map3d f (bmm (transpose_last gs) qh')) [])
                             []) = dk).
    { now apply (shape3_row H T dk _ h j (shape3_map3d H T dk f _ Hb)). }
    rewrite (nth_indep _ zero (f zero)) by lia.
    rewrite (nth_map3d f _ H T dk h j e zero Hb Hh Hj He). unfold f. f_equal.
    now apply (bmm_transpose_l_entry gs qh' H T T dk).
Qed.

(** Multiplying by [1.0 / sqrt(d_k)] is dividing by [sqrt(d_k)]: true of
    exact arithmetic, not of every floating-point value. *)
Definition reciprocal_is_division (self : MultiHeadAttention R) : Prop :=
  forall x : R, mul x (factor self) = div x (sqrt (of_int (d_k self))).

(** In an arithmetic where the source's multiplication by
    [1.0 / sqrt(d_k)] is the division by [sqrt(d_k)] (exact arithmetic; not
    floating point), the two scaled products are quotients. *)
Lemma backward_quotients
        (self : MultiHeadAttention R) (stacked qh' kh' vh' attn' gs : tensor3 R)
        (H T dk : nat) :
  reciprocal_is_division self ->
  0 < T -> 0 < dk ->
  shape3 H T dk stacked -> shape3 H T dk qh' -> shape3 H T dk kh' ->
  shape3 H T dk vh' -> shape3 H T T attn' -> shape3 H T T gs ->
  (forall h i j, h < H -> i < T -> j < T ->
     nth j (nth i (nth h (grad_attn stacked vh') []) []) zero =
     dotprod (nth i (nth h stacked []) []) (nth j (nth h vh' []) [])) /\
  (forall h j e, h < H -> j < T -> e < dk ->
     nth e (nth j (nth h (grad_vh attn' stacked) []) []) zero =
     dotprod (col zero j (nth h attn' [])) (col zero e (nth h stacked []))) /\
  (forall h i e, h < H -> i < T -> e < dk ->
     nth e (nth i (nth h (grad_qh self gs kh') []) []) zero =
     div (dotprod (nth i (nth h gs []) []) (col zero e (nth h kh' [])))
         (sqrt (of_int (d_k self)))) /\
  (forall h j e, h < H -> j < T -> e < dk ->
     nth e (nth j (nth h (grad_kh self gs qh') []) []) zero =
     div (dotprod (col zero j (nth h gs [])) (col zero e (nth h qh' [])))
         (sqrt (of_int (d_k self)))).
Proof.
  intros Hlaw HT Hdk Hst Hq Hk Hv Ha Hgs.
  destruct (backward_products self stacked qh' kh' vh' attn' gs H T dk
              HT Hdk Hst Hq Hk Hv Ha Hgs) as (P1 & P2 & P3 & P4).
  split; [exact P1|]. split; [exact P2|]. split.
  - intros h i e Hh Hi He. rewrite P3 by assumption. apply Hlaw.
  - intros h j e Hh Hj He. rewrite P4 by assumption. apply Hlaw.
Qed.
End BackwardSpec.

(** ** What [backward] leaves untouched, and the update *)

Section BackwardFrame.
Context {R : Type} {AR : Arith R}.

(** What a Projection's [backward] never writes: the configuration, the
    value of a Parameter, the Projections themselves and the cached heads. *)
Definition backward_frame (s s' : MultiHeadAttention R) : Prop :=
  d_model s' = d_model s /\ num_heads s' = num_heads s /\ d_k s' = d_k s /\
  (forall p, output (params s' p) = output (params s p)) /\
  (forall n, linears s' n = linears s n) /\
  qh s' = qh s /\ kh s' = kh s /\ vh s' = vh s /\ attn s' = attn s /\
  mask s' = mask s.

Lemma backward_frame_refl (s : MultiHeadAttention R) : backward_frame s s.
Proof. repeat split; reflexivity. Qed.

Lemma backward_frame_trans (s1 s2 s3 : MultiHeadAttention R) :
  backward_frame s1 s2 -> backward_frame s2 s3 -> backward_frame s1 s3.
Proof.
  intros (A1 & A2 & A3 & A4 & A5 & A6 & A7 & A8 & A9 & A10)
         (B1 & B2 & B3 & B4 & B5 & B6 & B7 & B8 & B9 & B10).
  unfold backward_frame.
  rewrite B1, B2, B3, B6, B7, B8, B9, B10.
  repeat split; try assumption.
  - intros p. now rewrite B4.
  - intros n. now rewrite B5.
Qed.

Lemma output_upd_param_accumulate
      (q : pname) (g : matrix R) (s : MultiHeadAttention R) (p : pname) :
  output (params (upd_param q (accumulate_grad g (params s q)) s) p) =
  output (params s p).
Proof.
  unfold upd_param. simpl. destruct (pname_eqb q p) eqn:E; [|reflexivity].
  destruct q, p; try discriminate E; reflexivity.
Qed.

Lemma X_accumulate_inv (r : xref) (g : matrix R) (s s' : MultiHeadAttention R) :
  X_accumulate r g s = Ok s' ->
  (exists l, s' = set_x_layer (Some l) s) \/ (exists c, s' = set_concat (Some c) s).
Proof.
  unfold X_accumulate. intros Hx. destruct r.
  - destruct (x_layer s) as [l|]; [|discriminate Hx]. cbn [deref bind] in Hx.
    injection Hx as <-. left. eexists. reflexivity.
  - destruct (concat s) as [c|]; [|discriminate Hx]. cbn [deref bind] in Hx.
    injection Hx as <-. right. eexists. reflexivity.
Qed.

Lemma Linear_backward_frame (n : lname) (s s' : MultiHeadAttention R) :
  Linear_backward n s = Ok s' -> backward_frame s s'.
Proof.
  unfold Linear_backward. intros Hb.
  destruct (X (linears s n)) as [r|]; [|discriminate Hb]. cbn [deref bind] in Hb.
  destruct (X_output r s) as [x|]; [|discriminate Hb]. cbn [bind] in Hb.
  apply X_accumulate_inv in Hb.
  assert (Hout : forall s0 : MultiHeadAttention R,
             (forall p, params s0 p = params
                (upd_param (b (linears s n))
                   (accumulate_grad (colsum (lgrad (linears s n)))
                      (params
                         (upd_param (W (linears s n))
                            (accumulate_grad
                               (matmul (transpose zero x) (lgrad (linears s n)))
                               (params s (W (linears s n)))) s)
                         (b (linears s n))))
                   (upd_param (W (linears s n))
                      (accumulate_grad
                         (matmul (transpose zero x) (lgrad (linears s n)))
                         (params s (W (linears s n)))) s)) p) ->
             forall p, output (params s0 p) = output (params s p)).
  { intros s0 Hs0 p. rewrite Hs0.
    now rewrite !output_upd_param_accumulate. }
  destruct Hb as [[l ->]|[c ->]]; unfold backward_frame;
    (do 3 (split; [reflexivity|]));
    (split; [apply Hout; reflexivity|]);
    repeat split; reflexivity.
Qed.
End BackwardFrame.

Section BackwardInversion.
Context {R : Type} {AR : Arith R}.

Lemma combine_heads_config (s s' : MultiHeadAttention R) (t : tensor3 R) :
  d_model s' = d_model s -> combine_heads s' t = combine_heads s t.
Proof. intros H. unfold combine_heads. now rewrite H. Qed.

Lemma backward_rest_inv (s s'' : MultiHeadAttention R) :
  backward_rest s = Ok s'' ->
  exists c vh' attn' kh' qh' gq gk gv,
    concat s = Some c /\ vh s = Some vh' /\ attn s = Some attn' /\
    kh s = Some kh' /\ qh s = Some qh' /\
    let stacked := map grad (layers_list (Concat_backward c)) in
    let gs := grad_scores attn' (grad_attn stacked vh') (mask s) in
    combine_heads s (grad_qh s gs kh') = Ok gq /\
    combine_heads s (grad_kh s gs qh') = Ok gk /\
    combine_heads s (grad_vh attn' stacked) = Ok gv /\
    lgrad (linear_q s'') = gq /\ lgrad (linear_k s'') = gk /\
    lgrad (linear_v s'') = gv /\
    (forall p, output (params s'' p) = output (params s p)).
Proof.
  unfold backward_rest. intros Hb.
  destruct (concat s) as [c|] eqn:Ec; [|discriminate Hb]. cbn [deref bind] in Hb.
  change (vh (set_concat (Some (Concat_backward c)) s)) with (vh s) in Hb.
  destruct (vh s) as [vh'|] eqn:Ev; [|discriminate Hb]. cbn [deref bind] in Hb.
  change (attn (set_concat (Some (Concat_backward c)) s)) with (attn s) in Hb.
  destruct (attn s) as [attn'|] eqn:Ea; [|discriminate Hb]. cbn [deref bind] in Hb.
  change (kh (set_concat (Some (Concat_backward c)) s)) with (kh s) in Hb.
  destruct (kh s) as [kh'|] eqn:Ek; [|discriminate Hb]. cbn [deref bind] in Hb.
  change (qh (set_concat (Some (Concat_backward c)) s)) with (qh s) in Hb.
  destruct (qh s) as [qh'|] eqn:Eq; [|discriminate Hb]. cbn [deref bind] in Hb.
  change (mask (set_concat (Some (Concat_backward c)) s)) with (mask s) in Hb.
  set (s0 := set_concat (Some (Concat_backward c)) s) in *.
  set (stacked := map grad (layers_list (Concat_backward c))) in *.
  set (gs := grad_scores attn' (grad_attn stacked vh') (mask s)) in *.
  change (combine_heads s0) with (combine_heads s) in Hb.
  change (grad_qh s0) with (grad_qh s) in Hb.
  change (grad_kh s0) with (grad_kh s) in Hb.
  destruct (combine_heads s (grad_qh s gs kh')) as [gq|] eqn:Eq1;
    [|discriminate Hb]. cbn [bind] in Hb.
  destruct (combine_heads s (grad_kh s gs qh')) as [gk|] eqn:Eq2;
    [|discriminate Hb]. cbn [bind] in Hb.
  destruct (combine_heads s (grad_vh attn' stacked)) as [gv|] eqn:Eq3;
    [|discriminate Hb]. cbn [bind] in Hb.
  set (sA := set_linear_grad Lv gv
               (set_linear_grad Lk gk (set_linear_grad Lq gq s0))) in *.
  destruct (Linear_backward Lv sA) as [s1|] eqn:E1; [|discriminate Hb].
  cbn [bind] in Hb.
  destruct (Linear_backward Lk s1) as [s2|] eqn:E2; [|discriminate Hb].
  cbn [bind] in Hb.
  apply Linear_backward_frame in E1, E2, Hb.
  pose proof (backward_frame_trans _ _ _ (backward_frame_trans _ _ _ E1 E2) Hb)
    as (_ & _ & _ & Hp & Hl & _).
  exists c, vh', attn', kh', qh', gq, gk, gv.
  do 5 (split; [reflexivity|]).
  split; [exact Eq1|]. split; [exact Eq2|]. split; [exact Eq3|].
  unfold linear_q, linear_k, linear_v. rewrite !Hl.
  do 3 (split; [reflexivity|]).
  intros p. rewrite Hp. reflexivity.
Qed.

Lemma backward_inv (s s'' : MultiHeadAttention R) :
  backward s = Ok s'' ->
  exists s1, Linear_backward Lout s = Ok s1 /\ backward_frame s s1 /\
             backward_rest s1 = Ok s''.
Proof.
  unfold backward. intros Hb.
  destruct (Linear_backward Lout s) as [s1|] eqn:E1; [|discriminate Hb].
  cbn [bind] in Hb. exists s1. split; [reflexivity|]. split; [|exact Hb].
  exact (Linear_backward_frame Lout s s1 E1).
Qed.

(** [backward] changes the value of no Parameter. *)
Lemma backward_keeps_values (s s'' : MultiHeadAttention R) :
  backward s = Ok s'' ->
  forall p, output (params s'' p) = output (params s p).
Proof.
  intros Hb p. destruct (backward_inv s s'' Hb) as (s1 & _ & Hfr & Hrest).
  destruct (backward_rest_inv s1 s'' Hrest)
    as (c & v & a & k & q & gq & gk & gv & _ & _ & _ & _ & _ & _ & _ & _
        & _ & _ & _ & Hp).
  rewrite Hp. apply Hfr.
Qed.

(** X13: after a successful [backward], the gradient slots of the Q, K and
    V Projections hold [combine_heads] of [grad_qh], [grad_kh] and [grad_vh],
    computed from the cached [qh], [kh], [vh], [attn] and [mask] and from the
    head gradients the Concat adapter hands out; what the slots held before
    is overwritten, not added to. *)
Lemma backward_projection_grads (s s'' : MultiHeadAttention R) :
  backward s = Ok s'' ->
  exists s1 c vh' attn' kh' qh',
    Linear_backward Lout s = Ok s1 /\ concat s1 = Some c /\
    vh s = Some vh' /\ attn s = Some attn' /\
    kh s = Some kh' /\ qh s = Some qh' /\
    let stacked := map grad (layers_list (Concat_backward c)) in
    let gs := grad_scores attn' (grad_attn stacked vh') (mask s) in
    combine_heads s (grad_qh s gs kh') = Ok (lgrad (linear_q s'')) /\
    combine_heads s (grad_kh s gs qh') = Ok (lgrad (linear_k s'')) /\
    combine_heads s (grad_vh attn' stacked) = Ok (lgrad (linear_v s'')).
Proof.
  intros Hb. destruct (backward_inv s s'' Hb) as (s1 & E1 & Hfr & Hrest).
  destruct (backward_rest_inv s1 s'' Hrest)
    as (c & v & a & k & q & gq & gk & gv & Ec & Ev & Ea & Ek & Eq & Hq & Hk
        & Hv & <- & <- & <- & _).
  destruct Hfr as (Fd & _ & Fk & _ & _ & Fqh & Fkh & Fvh & Fattn & Fmask).
  exists s1, c, v, a, k, q.
  rewrite <- Fvh, <- Fattn, <- Fkh, <- Fqh, <- Fmask.
  do 6 (split; [assumption|]).
  cbv zeta in *.
  rewrite !(combine_heads_config s1 s) by (symmetry; exact Fd).
  unfold grad_qh, grad_kh, factor in *. rewrite <- Fk.
  split; [exact Hq|]. split; [exact Hk|exact Hv].
Qed.
End BackwardInversion.

(** ** The update law *)

Section UpdateLaw.
Context {R : Type} {AR : Arith R} {SM : Softmax R}.

Lemma params_param_step (q : pname) (lr : R) (s : MultiHeadAttention R)
      (p : pname) :
  params (param_step q lr s) p =
  if pname_eqb q p then Input_step lr (params s q) else params s p.
Proof. reflexivity. Qed.

(** A [step] of the Projections that writes no Parameter. *)
Definition keeps_params
           (linear_step : lname -> R -> MultiHeadAttention R -> MultiHeadAttention R)
  : Prop :=
  forall n lr s p, params (linear_step n lr s) p = params s p.

Lemma Linear_step_inert_keeps_params : keeps_params Linear_step_inert.
Proof. intros n lr s p. reflexivity. Qed.

Lemma params_param_step_same (p : pname) (lr : R) (s : MultiHeadAttention R) :
  params (param_step p lr s) p = Input_step lr (params s p).
Proof. rewrite params_param_step. destruct p; reflexivity. Qed.

Lemma params_param_step_other (q p : pname) (lr : R) (s : MultiHeadAttention R) :
  q <> p -> params (param_step q lr s) p = params s p.
Proof.
  intros Hne. rewrite params_param_step.
  destruct q, p; try reflexivity; now contradiction Hne.
Qed.

Ltac param_steps :=
  repeat first [ rewrite params_param_step_same
               | rewrite params_param_step_other by discriminate ].

(** [step] runs the update rule of each Parameter once, on the value and the
    gradient the Parameter had when [step] was called. *)
Lemma params_step
      (linear_step : lname -> R -> MultiHeadAttention R -> MultiHeadAttention R)
      (lr : R) (s : MultiHeadAttention R) (p : pname) :
  keeps_params linear_step ->
  params (step linear_step lr s) p = Input_step lr (params s p).
Proof.
  intros Hk. unfold step.
  destruct p; param_steps; rewrite !Hk; reflexivity.
Qed.

(** The Projections as [__init__] binds them: each one refers to its own
    weight and bias among the eight Parameters. *)
Definition bound_as_constructed (s : MultiHeadAttention R) : Prop :=
  W (linears s Lq) = PW_q /\ b (linears s Lq) = Pb_q /\
  W (linears s Lk) = PW_k /\ b (linears s Lk) = Pb_k /\
  W (linears s Lv) = PW_v /\ b (linears s Lv) = Pb_v /\
  W (linears s Lout) = PW_o /\ b (linears s Lout) = Pb_o.

Lemma params_Linear_step_delegating_own
      (n : lname) (lr : R) (s : MultiHeadAttention R) (w c p : pname) :
  W (linears s n) = w -> b (linears s n) = c -> w <> c -> p = w \/ p = c ->
  params (Linear_step_delegating n lr s) p = Input_step lr (params s p).
Proof.
  intros Hw Hc Hne Hp. unfold Linear_step_delegating. rewrite Hw, Hc.
  fold (param_step w lr s). fold (param_step c lr (param_step w lr s)).
  destruct Hp as [-> | ->].
  - rewrite params_param_step_other by exact (not_eq_sym Hne).
    apply params_param_step_same.
  - rewrite params_param_step_same.
    now rewrite params_param_step_other by exact Hne.
Qed.

Lemma params_Linear_step_delegating_other
      (n : lname) (lr : R) (s : MultiHeadAttention R) (w c p : pname) :
  W (linears s n) = w -> b (linears s n) = c -> w <> p -> c <> p ->
  params (Linear_step_delegating n lr s) p = params s p.
Proof.
  intros Hw Hc Hnw Hnc. unfold Linear_step_delegating. rewrite Hw, Hc.
  fold (param_step w lr s). fold (param_step c lr (param_step w lr s)).
  now rewrite !params_param_step_other.
Qed.

Ltac delegating_steps :=
  repeat first
    [ rewrite (params_Linear_step_delegating_other Lout _ _ PW_o Pb_o)
        by (assumption || discriminate)
    | rewrite (params_Linear_step_delegating_other Lv _ _ PW_v Pb_v)
        by (assumption || discriminate)
    | rewrite (params_Linear_step_delegating_other Lk _ _ PW_k Pb_k)
        by (assumption || discriminate)
    | rewrite (params_Linear_step_delegating_other Lq _ _ PW_q Pb_q)
        by (assumption || discriminate)
    | rewrite (params_Linear_step_delegating_own Lout _ _ PW_o Pb_o)
        by (assumption || discriminate || (now left) || (now right))
    | rewrite (params_Linear_step_delegating_own Lv _ _ PW_v Pb_v)
        by (assumption || discriminate || (now left) || (now right))
    | rewrite (params_Linear_step_delegating_own Lk _ _ PW_k Pb_k)
        by (assumption || discriminate || (now left) || (now right))
    | rewrite (params_Linear_step_delegating_own Lq _ _ PW_q Pb_q)
        by (assumption || discriminate || (now left) || (now right)) ].

(** Were the [step] of a Projection to forward to the [step] of the weight
    and the bias it is bound to, [step] would run the update rule of every
    Parameter twice. *)
Lemma step_delegating_applies_twice
      (lr : R) (s : MultiHeadAttention R) (p : pname) :
  bound_as_constructed s ->
  params (step Linear_step_delegating lr s) p =
  Input_step lr (Input_step lr (params s p)).
Proof.
  intros (Wq & Bq & Wk & Bk & Wv & Bv & Wo & Bo).
  unfold step.
  destruct p; param_steps; delegating_steps; reflexivity.
Qed.

(** One training iteration is [forward], the caller's deposit of the
    upstream gradient in the gradient slot of the output Projection,
    [backward], then [step(lr)].  Whenever the three calls succeed, and if
    the [step] of the Projections writes no Parameter, each of the eight
    Parameters ends with its value from before the iteration minus [lr]
    times the gradient [backward] left on it, the rule being applied once.
    With [Linear_step_delegating] the rule is applied twice
    ([step_delegating_applies_twice]); the sources do not say which. *)
Lemma step_once_if_projections_keep_params
        (linear_step : lname -> R -> MultiHeadAttention R -> MultiHeadAttention R)
        (self s1 s2 : MultiHeadAttention R) (x : Input R)
        (mask' : option (matrix R)) (a : tensor3 R) (g : matrix R) (lr : R) :
  keeps_params linear_step ->
  forward self x mask' = Ok (s1, a) ->
  backward (deposit g s1) = Ok s2 ->
  forall p, In p all_params ->
    output (params (step linear_step lr s2) p) =
      msub (output (params self p)) (mscale lr (grad (params s2 p))) /\
    grad (params (step linear_step lr s2) p) = grad (params s2 p).
Proof.
  intros Hk Hf Hb p _.
  rewrite (params_step linear_step lr s2 p Hk).
  unfold Input_step. cbn [output grad].
  rewrite (backward_keeps_values (deposit g s1) s2 Hb p).
  destruct (forward_keeps_frame self s1 x mask' a Hf) as (_ & _ & _ & Hp & _).
  unfold deposit, set_linear_grad, upd_linear. cbn [params set_linears].
  rewrite (Hp p). split; reflexivity.
Qed.
End UpdateLaw.

(** * Further properties of the class *)

(** ** Heads: where each entry goes, and when the views fail *)

Section HeadsEntries.
Context {R : Type}.

Lemma nth_view_heads (H dk h e : nat) (r : list R) (d : R) :
  h < H -> e < dk ->
  nth e (nth h (view_heads H dk r) []) d = nth (h * dk + e) r d.
Proof.
  intros Hh He. unfold view_heads.
  rewrite (nth_map_lt (fun h => firstn dk (skipn (h * dk) r)) (seq 0 H) 0 []
                      (n := h))
    by (rewrite length_seq; exact Hh).
  rewrite seq_nth by exact Hh. cbn [plus].
  rewrite nth_firstn. apply Nat.ltb_lt in He. rewrite He.
  apply nth_skipn.
Qed.

Lemma nth_concat_uniform (k : nat) (l : list (list R)) (h e : nat) (d : R) :
  Forall (fun r => length r = k) l -> h < length l -> e < k ->
  nth (h * k + e) (List.concat l) d = nth e (nth h l []) d.
Proof.
  intros Hall. revert h. induction Hall as [|r l Hr _ IH]; intros h Hh He.
  - simpl in Hh. lia.
  - simpl. destruct h as [|h].
    + simpl. rewrite app_nth1 by lia. reflexivity.
    + rewrite app_nth2 by (rewrite Hr; simpl; lia).
      replace (S h * k + e - length r) with (h * k + e) by (rewrite Hr; simpl; lia).
      apply IH; [simpl in Hh; lia|exact He].
Qed.

(** X1: on a block whose heads tile the model width, [split_heads] of a
    [T x d_model] matrix returns a [num_heads x T x d_k] tensor, and entry
    [e] of position [i] in head [h] is entry [h * d_k + e] of row [i]. *)
Theorem split_heads_entries
        (self : MultiHeadAttention R) (x : matrix R) (T : nat) (d : R) :
  valid_config self ->
  shape2 T (Z.to_nat (d_model self)) x ->
  exists t,
    split_heads self x = Ok t /\
    shape3 (Z.to_nat (num_heads self)) T (Z.to_nat (d_k self)) t /\
    forall h i e,
      h < Z.to_nat (num_heads self) -> i < T -> e < Z.to_nat (d_k self) ->
      nth e (nth i (nth h t []) []) d =
      nth (h * Z.to_nat (d_k self) + e) (nth i x []) d.
Proof.
  intros Hv Hx.
  destruct (split_heads_shape self x T Hv Hx) as (t & Ht & St).
  exists t. split; [exact Ht|]. split; [exact St|].
  rewrite (split_heads_ok Hv Hx) in Ht. injection Ht as <-.
  intros h i e Hh Hi He.
  set (H := Z.to_nat (num_heads self)) in *.
  set (dk := Z.to_nat (d_k self)) in *.
  rewrite (nth_map_lt (fun h => map (fun r => nth h (view_heads H dk r) []) x)
                      (seq 0 H) 0 [] (n := h))
    by (rewrite length_seq; exact Hh).
  rewrite seq_nth by exact Hh. cbn [plus].
  rewrite (nth_map_lt (fun r => nth h (view_heads H dk r) []) x [] [] (n := i))
    by (destruct Hx as [-> _]; exact Hi).
  now apply nth_view_heads.
Qed.

(** X2: on a block whose [num_heads] and [d_k] are not negative,
    [split_heads] succeeds exactly when every row has [num_heads * d_k]
    entries, and raises [RuntimeError] (the view fails) as soon as one row
    has another width; a matrix with no rows is accepted. *)
Theorem split_heads_raises_iff (self : MultiHeadAttention R) (x : matrix R) :
  (0 <= num_heads self)%Z -> (0 <= d_k self)%Z ->
  let w := Z.to_nat (num_heads self) * Z.to_nat (d_k self) in
  ((exists t, split_heads self x = Ok t) <->
   Forall (fun r => length r = w) x) /\
  (split_heads self x = Raise RuntimeError <->
   exists r, In r x /\ length r <> w) /\
  (exists t, split_heads self [] = Ok t /\
             shape3 (Z.to_nat (num_heads self)) 0 (Z.to_nat (d_k self)) t).
Proof.
  intros _ _ w. unfold split_heads. fold w.
  destruct (forallb (fun r => length r =? w) x) eqn:E.
  - assert (Hall : Forall (fun r => length r = w) x)
      by now apply forallb_length_eq.
    split; [|split].
    + split; [intros _; exact Hall|intros _; eexists; reflexivity].
    + split; [discriminate|].
      intros (r & Hin & Hne). rewrite Forall_forall in Hall.
      now specialize (Hall r Hin).
    + simpl. eexists. split; [reflexivity|]. split.
      * now rewrite length_map, length_seq.
      * apply Forall_forall. intros m Hm. apply in_map_iff in Hm.
        destruct Hm as (h & <- & _). split; [reflexivity|constructor].
  - assert (Hnot : ~ Forall (fun r => length r = w) x).
    { intros Hall. apply forallb_length_eq in Hall. congruence. }
    split; [|split].
    + split; [intros (t & Ht); discriminate Ht|intros Hall; now contradiction Hnot].
    + split; [intros _|reflexivity].
      apply Exists_exists. now apply neg_Forall_Exists_neg;
        [intros r; destruct (Nat.eq_dec (length r) w); [left|right]|].
    + simpl. eexists. split; [reflexivity|]. split.
      * now rewrite length_map, length_seq.
      * apply Forall_forall. intros m Hm. apply in_map_iff in Hm.
        destruct Hm as (h & <- & _). split; [reflexivity|constructor].
Qed.
End HeadsEntries.

Section CombineHeads.
Context {R : Type}.

Lemma nrows_hd_shape3 (H T D : nat) (t : tensor3 R) :
  shape3 H T D t -> 0 < H -> nrows (hd [] t) = T.
Proof.
  intros [Ht Hall] Hpos. destruct t as [|m t]; simpl in *; [lia|].
  inversion Hall as [|? ? [Hm _] _]. exact Hm.
Qed.

Lemma rows_shape3 (H T D : nat) (t : tensor3 R) (i : nat) :
  shape3 H T D t -> i < T ->
  length (map (row i) t) = H /\ Forall (fun r => length r = D) (map (row i) t).
Proof.
  intros [Ht Hall] Hi. split; [now rewrite length_map|].
  apply Forall_forall. intros r Hr. apply in_map_iff in Hr.
  destruct Hr as (m & <- & Hm). rewrite Forall_forall in Hall.
  exact (shape2_row (Hall m Hm) Hi).
Qed.

(** What [combine_heads] returns on heads of one shape. *)
Lemma combine_heads_ok
      (self : MultiHeadAttention R) (t : tensor3 R) (H T D : nat) :
  shape3 H T D t -> 0 < H -> H * D = Z.to_nat (d_model self) ->
  combine_heads self t =
  Ok (map (fun i => List.concat (map (row i) t)) (seq 0 T)).
Proof.
  intros St Hpos Hw. unfold combine_heads.
  rewrite (nrows_hd_shape3 H T D t St Hpos).
  replace (forallb _ _) with true; [reflexivity|].
  symmetry. apply forallb_forall. intros r Hr. apply in_map_iff in Hr.
  destruct Hr as (i & <- & Hi). apply in_seq in Hi. apply Nat.eqb_eq.
  destruct (rows_shape3 H T D t i St) as [Hl Hall]; [lia|].
  rewrite (length_concat_uniform D _ Hall), Hl. exact Hw.
Qed.

Lemma combine_heads_shape
      (self : MultiHeadAttention R) (t : tensor3 R) (H T D : nat) :
  shape3 H T D t -> 0 < H -> H * D = Z.to_nat (d_model self) ->
  shape2 T (Z.to_nat (d_model self))
         (map (fun i => List.concat (map (row i) t)) (seq 0 T)).
Proof.
  intros St Hpos Hw. split.
  - now rewrite length_map, length_seq.
  - apply Forall_forall. intros r Hr. apply in_map_iff in Hr.
    destruct Hr as (i & <- & Hi). apply in_seq in Hi.
    destruct (rows_shape3 H T D t i St) as [Hl Hall]; [lia|].
    now rewrite (length_concat_uniform D _ Hall), Hl.
Qed.

(** X3: on heads of shape [H x T x D] with [H >= 1] and [H * D = d_model],
    [combine_heads] returns a [T x d_model] matrix whose row [i] holds, at
    [h * D + e], entry [e] of position [i] of head [h]. *)
Theorem combine_heads_entries
        (self : MultiHeadAttention R) (t : tensor3 R) (H T D : nat) (d : R) :
  shape3 H T D t -> 0 < H -> H * D = Z.to_nat (d_model self) ->
  exists m,
    combine_heads self t = Ok m /\
    shape2 T (Z.to_nat (d_model self)) m /\
    forall h i e, h < H -> i < T -> e < D ->
      nth (h * D + e) (nth i m []) d = nth e (nth i (nth h t []) []) d.
Proof.
  intros St Hpos Hw. rewrite (combine_heads_ok self t H T D St Hpos Hw).
  eexists. split; [reflexivity|].
  split; [exact (combine_heads_shape self t H T D St Hpos Hw)|].
  intros h i e Hh Hi He.
  rewrite (nth_map_lt (fun i => List.concat (map (row i) t)) (seq 0 T) 0 []
                      (n := i))
    by (rewrite length_seq; exact Hi).
  rewrite seq_nth by exact Hi. cbn [plus].
  destruct (rows_shape3 H T D t i St Hi) as [Hl Hall].
  rewrite (nth_concat_uniform D _ h e d Hall) by (rewrite ?Hl; assumption).
  f_equal. unfold row.
  apply (nth_map_lt (fun m => nth i m []) t [] []).
  destruct St as [-> _]. exact Hh.
Qed.

(** X4: on a block whose heads tile the model width, [split_heads] undoes
    [combine_heads]: for every tensor of shape [num_heads x T x d_k] both
    calls succeed and return the tensor itself. *)
Theorem split_heads_combine_heads
        (self : MultiHeadAttention R) (t : tensor3 R) (T : nat) :
  valid_config self ->
  shape3 (Z.to_nat (num_heads self)) T (Z.to_nat (d_k self)) t ->
  (m <- combine_heads self t ;; split_heads self m) = Ok t.
Proof.
  intros Hv St. destruct (valid_config_width Hv) as [Hw Hpos].
  set (H := Z.to_nat (num_heads self)) in *.
  set (dk := Z.to_nat (d_k self)) in *.
  rewrite (combine_heads_ok self t H T dk St Hpos (eq_sym Hw)). cbn [bind].
  set (m := map (fun i => List.concat (map (row i) t)) (seq 0 T)).
  assert (Sm : shape2 T (Z.to_nat (d_model self)) m)
    by exact (combine_heads_shape self t H T dk St Hpos (eq_sym Hw)).
  rewrite (split_heads_ok Hv Sm). f_equal. fold H dk.
  apply (nth_ext _ _ [] []).
  { rewrite length_map, length_seq. destruct St as [-> _]. reflexivity. }
  intros h Hh. rewrite length_map, length_seq in Hh.
  rewrite (nth_map_lt (fun h => map (fun r => nth h (view_heads H dk r) []) m)
                      (seq 0 H) 0 [] (n := h))
    by (rewrite length_seq; exact Hh).
  rewrite seq_nth by exact Hh. cbn [plus].
  pose proof (shape3_nth H T dk t h St Hh) as [Lh Hrows].
  apply (nth_ext _ _ [] []).
  { rewrite length_map, Lh. apply Sm. }
  intros i Hi. rewrite length_map in Hi. destruct Sm as [Lm _].
  rewrite Lm in Hi.
  rewrite (nth_map_lt (fun r => nth h (view_heads H dk r) []) m [] [] (n := i))
    by (rewrite Lm; exact Hi).
  unfold m.
  rewrite (nth_map_lt (fun i => List.concat (map (row i) t)) (seq 0 T) 0 []
                      (n := i))
    by (rewrite length_seq; exact Hi).
  rewrite seq_nth by exact Hi. cbn [plus].
  destruct (rows_shape3 H T dk t i St Hi) as [Hl Hall].
  unfold view_heads.
  rewrite (nth_map_lt (fun h => firstn dk (skipn (h * dk)
                                 (List.concat (map (row i) t))))
                      (seq 0 H) 0 [] (n := h))
    by (rewrite length_seq; exact Hh).
  rewrite seq_nth by exact Hh. cbn [plus].
  assert (Lr : length (nth i (nth h t []) []) = dk).
  { rewrite Forall_forall in Hrows. apply Hrows, nth_In. lia. }
  destruct (nth i (nth h t []) []) as [|d r] eqn:Er.
  - simpl in Lr. rewrite <- Lr. apply firstn_O.
  - rewrite <- Er in *. apply (nth_ext _ _ d d).
    + rewrite length_firstn, length_skipn, Lr.
      rewrite (length_concat_uniform dk _ Hall), Hl. nia.
    + intros e He. rewrite length_firstn, length_skipn in He.
      rewrite (length_concat_uniform dk _ Hall), Hl in He.
      assert (He' : e < dk) by lia.
      rewrite nth_firstn. apply Nat.ltb_lt in He'. rewrite He'.
      apply Nat.ltb_lt in He'. rewrite nth_skipn.
      rewrite (nth_concat_uniform dk _ h e d Hall) by (rewrite ?Hl; assumption).
      f_equal. unfold row.
      apply (nth_map_lt (fun m => nth i m []) t [] []).
      destruct St as [-> _]. exact Hh.
Qed.

(** X5: on heads of shape [H x T x D] with [H >= 1] and [T >= 1],
    [combine_heads] succeeds exactly when [H * D = d_model], whatever
    [num_heads] and [d_k] are, and raises [RuntimeError] otherwise. *)
Theorem combine_heads_raises_iff
        (self : MultiHeadAttention R) (t : tensor3 R) (H T D : nat) :
  shape3 H T D t -> 0 < H -> 0 < T ->
  ((exists m, combine_heads self t = Ok m) <-> H * D = Z.to_nat (d_model self)) /\
  (combine_heads self t = Raise RuntimeError <->
   H * D <> Z.to_nat (d_model self)).
Proof.
  intros St Hpos HT.
  destruct (Nat.eq_dec (H * D) (Z.to_nat (d_model self))) as [Hw|Hw].
  - rewrite (combine_heads_ok self t H T D St Hpos Hw).
    split; split; try discriminate; try (intros _; exact Hw).
    + intros _. eexists. reflexivity.
    + intros Hne. now contradiction Hne.
  - assert (Hr : combine_heads self t = Raise RuntimeError).
    { unfold combine_heads. rewrite (nrows_hd_shape3 H T D t St Hpos).
      replace (forallb _ _) with false; [reflexivity|].
      symmetry. apply not_true_is_false. intros Hall.
      rewrite forallb_forall in Hall.
      specialize (Hall (List.concat (map (row 0) t))).
      destruct (rows_shape3 H T D t 0 St HT) as [Hl Hrows].
      rewrite (length_concat_uniform D _ Hrows), Hl in Hall.
      apply Hw, Nat.eqb_eq, Hall. apply in_map_iff. exists 0.
      split; [reflexivity|]. apply in_seq. lia. }
    rewrite Hr. split; split; try (intros _; assumption || reflexivity).
    + intros (m & Hm). discriminate Hm.
    + intros Hw'. now contradiction Hw.
Qed.
End CombineHeads.

(** ** Attention: masks and shapes *)

Section AttentionMasks.
Context {R : Type} {AR : Arith R} {SM : Softmax R}.

Lemma shape3_scores (self : MultiHeadAttention R) (q k : tensor3 R)
      (H T S dk : nat) :
  0 < S -> 0 < dk -> shape3 H T dk q -> shape3 H S dk k ->
  shape3 H T S (scores self q k).
Proof.
  intros HS Hdk Hq Hk. unfold scores. apply shape3_map3d.
  apply (shape3_bmm H T dk dk S); try assumption.
  now apply shape3_transpose_last.
Qed.

(** On a [T x S] mask no broadcasting takes place: the entry that governs
    query [i] and key [j] is [m[i][j]]. *)
Lemma mask_at_full (m : matrix R) (T S i j : nat) :
  shape2 T S m -> i < T -> j < S ->
  mask_at m i j = nth j (nth i m []) one.
Proof.
  intros Sm Hi Hj. pose proof (shape2_row Sm Hi) as Lr.
  destruct Sm as [Lm _]. unfold mask_at, bidx. rewrite Lm.
  assert (Ei : (if T =? 1 then 0 else i) = i)
    by (destruct (Nat.eqb_spec T 1); lia).
  rewrite Ei, Lr.
  assert (Ej : (if S =? 1 then 0 else j) = j)
    by (destruct (Nat.eqb_spec S 1); lia).
  now rewrite Ej.
Qed.

Lemma masked_mask_zero (mask' : option (matrix R)) (T S i j : nat) :
  mask_shape T S mask' -> i < T -> j < S ->
  masked mask' i j = mask_zero mask' i j.
Proof.
  intros Sm Hi Hj. destruct mask' as [m|]; [|reflexivity].
  unfold masked, mask_zero. now rewrite (mask_at_full m T S i j Sm Hi Hj).
Qed.

Lemma masked_fill_without_zero (t : tensor3 R) (m : matrix R) (v : R)
      (H T D : nat) :
  shape3 H T D t ->
  (forall i j, i < T -> j < D -> is_zero (mask_at m i j) = false) ->
  masked_fill t m v = t.
Proof.
  intros St Hm. pose proof (shape3_masked_fill H T D t m v St) as Sf.
  apply (nth_ext _ _ [] []).
  { destruct St as [-> _]. apply Sf. }
  intros h Hh. destruct Sf as [Lf Hallf]. rewrite Lf in Hh.
  pose proof (shape3_nth H T D t h St Hh) as Sh.
  assert (Sfh : shape2 T D (nth h (masked_fill t m v) [])).
  { rewrite Forall_forall in Hallf. apply Hallf, nth_In. lia. }
  apply (nth_ext _ _ [] []).
  { destruct Sh as [-> _]. apply Sfh. }
  intros i Hi. destruct Sfh as [Lfh Hrows]. rewrite Lfh in Hi.
  assert (Lr : length (nth i (nth h (masked_fill t m v) []) []) = D).
  { rewrite Forall_forall in Hrows. apply Hrows, nth_In. lia. }
  apply (nth_ext _ _ v v).
  { rewrite Lr. symmetry. exact (shape2_row Sh Hi). }
  intros j Hj. rewrite Lr in Hj.
  rewrite (nth_masked_fill t m v H T D h i j v St Hh Hi Hj).
  now rewrite (Hm i j Hi Hj).
Qed.

(** X6: a [T x S] mask with no zero entry is no mask: on a block whose
    [d_k] is not negative, for queries of shape [H x T x d_k] and keys of
    shape [H x S x d_k], [scaled_dot_product_attention] returns the same
    pair as with [mask=None]. *)
Theorem attention_mask_without_zero
        (self : MultiHeadAttention R) (q k v : tensor3 R) (m : matrix R)
        (H T S dk : nat) :
  (0 <= d_k self)%Z ->
  0 < S -> 0 < dk -> shape3 H T dk q -> shape3 H S dk k ->
  shape2 T S m ->
  (forall i j, i < T -> j < S -> is_zero (nth j (nth i m []) one) = false) ->
  scaled_dot_product_attention self q k v (Some m) =
  scaled_dot_product_attention self q k v None.
Proof.
  intros _ HS Hdk Hq Hk Sm Hm.
  unfold scaled_dot_product_attention, masked_scores.
  rewrite (masked_fill_without_zero (scores self q k) m neg_inf H T S
             (shape3_scores self q k H T S dk HS Hdk Hq Hk)); [reflexivity|].
  intros i j Hi Hj. rewrite (mask_at_full m T S i j Sm Hi Hj). now apply Hm.
Qed.




(** X8: on a block whose [d_k] is not negative, with queries of shape
    [H x T x d_k], keys of shape [H x S x d_k] and values of shape
    [H x S x d_v], without a mask or with a [T x S] mask,
    [scaled_dot_product_attention] returns an output of shape [H x T x d_v]
    and weights of shape [H x T x S], for a softmax that keeps the length of
    a row. *)
Theorem attention_result_shapes
        (self : MultiHeadAttention R) (q k v : tensor3 R)
        (m : option (matrix R)) (H T S dk dv : nat) :
  (0 <= d_k self)%Z ->
  softmax_keeps_length -> 0 < S -> 0 < dk ->
  shape3 H T dk q -> shape3 H S dk k -> shape3 H S dv v ->
  mask_shape T S m ->
  shape3 H T dv (fst (scaled_dot_product_attention self q k v m)) /\
  shape3 H T S (snd (scaled_dot_product_attention self q k v m)).
Proof.
  intros _ Hsoft HS Hdk Hq Hk Hv _.
  pose proof (shape3_scores self q k H T S dk HS Hdk Hq Hk) as Ss.
  assert (Hm : shape3 H T S (masked_scores self q k m)).
  { unfold masked_scores. destruct m; [now apply shape3_masked_fill|exact Ss]. }
  assert (Ha : shape3 H T S (softmax_last (masked_scores self q k m))).
  { unfold softmax_last. apply shape3_map; [|exact Hm].
    intros mat Hmat. apply shape2_map; [exact Hsoft|exact Hmat]. }
  unfold scaled_dot_product_attention. cbn [fst snd]. split; [|exact Ha].
  now apply (shape3_bmm H T S S dv).
Qed.

End AttentionMasks.

(** ** The backward pass: shapes of the gradients *)

Section BackwardShapes.
Context {R : Type} {AR : Arith R}.

Lemma shape3_grad_scores (attn' ga : tensor3 R) (m : option (matrix R))
      (H T : nat) :
  shape3 H T T attn' -> shape3 H T T ga ->
  shape3 H T T (grad_scores attn' ga m).
Proof.
  intros Ha Hg.
  assert (Hsum : shape3 H T 1 (sum_grad ga attn')).
  { unfold sum_grad. apply (shape3_sum_last _ H T T). now apply shape3_mul3. }
  assert (Hg0 : shape3 H T T (mul3 attn' (sub_bcast_last ga (sum_grad ga attn')))).
  { apply shape3_mul3; [exact Ha|]. now apply shape3_sub_bcast_last. }
  unfold grad_scores. destruct m; [now apply shape3_masked_fill|exact Hg0].
Qed.

(** The shapes of the tensors [backward] computes. *)
Lemma grad_shapes
      (self : MultiHeadAttention R) (stacked qh' kh' vh' attn' : tensor3 R)
      (m : option (matrix R)) (H T D : nat) :
  0 < T -> 0 < D ->
  shape3 H T D stacked -> shape3 H T D qh' -> shape3 H T D kh' ->
  shape3 H T D vh' -> shape3 H T T attn' ->
  let ga := grad_attn stacked vh' in
  let gs := grad_scores attn' ga m in
  shape3 H T T ga /\ shape3 H T T gs /\
  shape3 H T D (grad_qh self gs kh') /\ shape3 H T D (grad_kh self gs qh') /\
  shape3 H T D (grad_vh attn' stacked).
Proof.
  intros HT HD Hst Hq Hk Hv Ha ga gs.
  assert (Sga : shape3 H T T ga).
  { unfold ga, grad_attn. apply (shape3_bmm H T D D T); try assumption.
    now apply shape3_transpose_last. }
  assert (Sgs : shape3 H T T gs) by now apply shape3_grad_scores.
  split; [exact Sga|]. split; [exact Sgs|]. split; [|split].
  - unfold grad_qh. apply shape3_map3d. now apply (shape3_bmm H T T T D).
  - unfold grad_kh. apply shape3_map3d. apply (shape3_bmm H T T T D);
      try assumption. now apply shape3_transpose_last.
  - unfold grad_vh. apply (shape3_bmm H T T T D); try assumption.
    now apply shape3_transpose_last.
Qed.

(** X9: on a block with [d_k >= 1], from head gradients and cached heads
    of shape [H x T x D] and cached weights of shape [H x T x T], with
    [H * D = d_model] and no mask or a [T x T] mask, the gradients
    [backward] computes keep the shapes of what they are gradients of, none
    of its three [combine_heads] calls raises, and the gradients handed to
    the Q, K and V Projections are [T x d_model]. *)
Theorem backward_gradient_shapes
        (self : MultiHeadAttention R) (stacked qh' kh' vh' attn' : tensor3 R)
        (m : option (matrix R)) (H T D : nat) :
  (0 < d_k self)%Z -> mask_shape T T m ->
  0 < H -> 0 < T -> 0 < D -> H * D = Z.to_nat (d_model self) ->
  shape3 H T D stacked -> shape3 H T D qh' -> shape3 H T D kh' ->
  shape3 H T D vh' -> shape3 H T T attn' ->
  let ga := grad_attn stacked vh' in
  let gs := grad_scores attn' ga m in
  shape3 H T T ga /\ shape3 H T T gs /\
  shape3 H T D (grad_qh self gs kh') /\ shape3 H T D (grad_kh self gs qh') /\
  shape3 H T D (grad_vh attn' stacked) /\
  exists grad_q grad_k grad_v,
    combine_heads self (grad_qh self gs kh') = Ok grad_q /\
    combine_heads self (grad_kh self gs qh') = Ok grad_k /\
    combine_heads self (grad_vh attn' stacked) = Ok grad_v /\
    shape2 T (Z.to_nat (d_model self)) grad_q /\
    shape2 T (Z.to_nat (d_model self)) grad_k /\
    shape2 T (Z.to_nat (d_model self)) grad_v.
Proof.
  intros _ _ HH HT HD Hw Hst Hq Hk Hv Ha. cbv zeta.
  destruct (grad_shapes self stacked qh' kh' vh' attn' m H T D HT HD
              Hst Hq Hk Hv Ha) as (Sga & Sgs & Sq & Sk & Sv).
  do 5 (split; [assumption|]).
  rewrite (combine_heads_ok self _ H T D Sq HH Hw).
  rewrite (combine_heads_ok self _ H T D Sk HH Hw).
  rewrite (combine_heads_ok self _ H T D Sv HH Hw).
  do 3 eexists. do 3 (split; [reflexivity|]).
  split; [|split]; now apply (combine_heads_shape self _ H T D).
Qed.
End BackwardShapes.

(** ** Construction, the caches of [forward], and [clear_grad] *)

Section BlockLifeCycle.
Context {R : Type} {AR : Arith R} {SM : Softmax R}.

(** X10: on every block the constructor returns for positive [d_model] and
    [num_heads], the heads tile the model width exactly
    ([d_model = num_heads * d_k] with [d_k >= 1]), so [split_heads] accepts
    every [T x d_model] matrix and returns [num_heads x T x d_k]. *)
Theorem init_then_split_heads
        (dm nh : Z) (rnd : pname -> nat -> nat -> R)
        (self : MultiHeadAttention R) (x : matrix R) (T : nat) :
  (0 < dm)%Z -> (0 < nh)%Z ->
  init dm nh rnd = Ok self ->
  shape2 T (Z.to_nat dm) x ->
  d_model self = (num_heads self * d_k self)%Z /\ (1 <= d_k self)%Z /\
  exists t, split_heads self x = Ok t /\
            shape3 (Z.to_nat nh) T (Z.to_nat (dm / nh)) t.
Proof.
  intros Hd Hn Hinit Hx.
  destruct (Z.eq_dec (dm mod nh) 0) as [Hm|Hm].
  2:{ rewrite (@init_not_divisible R AR dm nh rnd Hn Hm) in Hinit. discriminate Hinit. }
  pose proof (init_well_formed dm nh rnd self Hd Hn Hm Hinit) as (Hv & Hk & _).
  destruct (@init_divisible R AR dm nh rnd Hd Hn Hm) as (s & Hs & Hfresh).
  rewrite Hinit in Hs. injection Hs as <-.
  destruct Hfresh as (E1 & E2 & E3 & _).
  split; [apply Hv|]. split; [lia|].
  rewrite <- E1 in Hx. rewrite <- E3, <- E2.
  exact (split_heads_shape self x T Hv Hx).
Qed.

(** X11: a successful [forward] leaves in the block what [backward] reads:
    the mask it was given, the three split projections, and as cached
    weights the very weights it returns, computed from those heads and that
    mask; the output Projection is bound to the Concat adapter and the other
    three to the caller's layer. *)
Theorem forward_caches
        (self s' : MultiHeadAttention R) (x : Input R)
        (mask' : option (matrix R)) (a : tensor3 R) :
  forward self x mask' = Ok (s', a) ->
  attn s' = Some a /\ mask s' = mask' /\
  (exists qh' kh' vh',
     qh s' = Some qh' /\ kh s' = Some kh' /\ vh s' = Some vh' /\
     split_heads self (loutput (linear_q s')) = Ok qh' /\
     split_heads self (loutput (linear_k s')) = Ok kh' /\
     split_heads self (loutput (linear_v s')) = Ok vh' /\
     a = snd (scaled_dot_product_attention self qh' kh' vh' mask')) /\
  (exists c, concat s' = Some c) /\
  X (linear_q s') = Some XInput /\ X (linear_k s') = Some XInput /\
  X (linear_v s') = Some XInput /\ X (linear_out s') = Some XConcat.
Proof.
  intros Hf.
  destruct (forward_inv self s' x mask' a Hf)
    as (q & k & v & Eq & Ek & Ev & Ea & Hpost).
  destruct Hpost as (_ & (X1 & X2 & X3 & X4) & (O1 & O2 & O3 & _) & _
                     & (C1 & C2 & C3 & C4 & C5 & C6)).
  split; [now rewrite C4, Ea|]. split; [exact C5|]. split.
  - exists q, k, v. rewrite O1, O2, O3. repeat split; assumption.
  - split; [eexists; exact C6|]. repeat split; assumption.
Qed.
End BlockLifeCycle.

Section ClearGrad.
Context {R : Type} {AR : Arith R}.

Lemma clear_grad_with_concat (s : MultiHeadAttention R) (c : Concat R) :
  concat s = Some c ->
  exists s', clear_grad s = Ok s' /\
    (forall p, output (params s' p) = output (params s p) /\
               grad (params s' p) = zeros_like (grad (params s p))) /\
    (forall n, lgrad (linears s' n) = zeros_like (lgrad (linears s n)) /\
               loutput (linears s' n) = loutput (linears s n) /\
               X (linears s' n) = X (linears s n) /\
               W (linears s' n) = W (linears s n) /\
               b (linears s' n) = b (linears s n)) /\
    concat s' = Some (Concat_clear_grad c) /\
    qh s' = qh s /\ kh s' = kh s /\ vh s' = vh s /\ attn s' = attn s /\
    mask s' = mask s /\
    d_model s' = d_model s /\ num_heads s' = num_heads s /\ d_k s' = d_k s.
Proof.
  intros Hc. unfold clear_grad.
  change (concat (Linear_clear_grad Lout
            (Linear_clear_grad Lv
               (Linear_clear_grad Lk (Linear_clear_grad Lq s)))))
    with (concat s).
  rewrite Hc. cbn [deref bind]. eexists. split; [reflexivity|].
  split; [intros p; destruct p; split; reflexivity|].
  split; [intros n; destruct n; repeat split; reflexivity|].
  repeat split; reflexivity.
Qed.
End ClearGrad.

Section ClearGradAfterForward.
Context {R : Type} {AR : Arith R} {SM : Softmax R}.

(** X12: once [forward] has succeeded, [clear_grad] returns: it resets the
    gradient of each of the eight Parameters and of each of the four
    Projections to zeros of the same shape, and leaves the values of the
    Parameters, the configuration and the cached forward state
    ([qh], [kh], [vh], [attn], [mask]) as they were. *)
Theorem clear_grad_after_forward
        (self s1 : MultiHeadAttention R) (x : Input R)
        (mask' : option (matrix R)) (a : tensor3 R) :
  forward self x mask' = Ok (s1, a) ->
  exists s2, clear_grad s1 = Ok s2 /\
    (forall p, output (params s2 p) = output (params self p) /\
               grad (params s2 p) = zeros_like (grad (params self p))) /\
    (forall n, lgrad (linears s2 n) = zeros_like (lgrad (linears self n))) /\
    qh s2 = qh s1 /\ kh s2 = kh s1 /\ vh s2 = vh s1 /\
    attn s2 = Some a /\ mask s2 = mask' /\
    d_model s2 = d_model self /\ num_heads s2 = num_heads self /\
    d_k s2 = d_k self.
Proof.
  intros Hf.
  destruct (forward_inv self s1 x mask' a Hf)
    as (q & k & v & _ & _ & _ & Ea & Hpost).
  destruct Hpost as ((F1 & F2 & F3 & Fp & Fl) & _ & _ & _
                     & (_ & _ & _ & C4 & C5 & C6)).
  destruct (clear_grad_with_concat s1 _ C6)
    as (s2 & E2 & Hp & Hl & _ & Q & K & V & A & M & D1 & D2 & D3).
  exists s2. split; [exact E2|].
  split; [intros p; destruct (Hp p) as [-> ->]; now rewrite (Fp p)|].
  split; [intros n; destruct (Hl n) as (-> & _); destruct (Fl n) as (_ & _ & ->);
          reflexivity|].
  rewrite Q, K, V, A, M, D1, D2, D3, C4, C5, Ea.
  repeat split; assumption.
Qed.
End ClearGradAfterForward.

(** ** A whole iteration runs *)

Section IterationRuns.
Context {R : Type} {AR : Arith R}.

Lemma shape2_zip_with2 (f : R -> R -> R) (T D : nat) (a c : matrix R) :
  shape2 T D a -> shape2 T D c -> shape2 T D (zip_with (zip_with f) a c).
Proof.
  intros [La Ha] [Lc Hc]. split.
  - rewrite length_zip_with. lia.
  - apply (Forall_zip_with _ (fun r => length r = D) (fun r => length r = D));
      try assumption.
    intros r1 r2 H1 H2. rewrite length_zip_with. lia.
Qed.

Lemma shape2_zeros (T D : nat) (z : R) : shape2 T D (zeros T D z).
Proof.
  unfold zeros. split; [apply repeat_length|].
  apply Forall_forall. intros r Hr. apply repeat_spec in Hr. subst r.
  apply repeat_length.
Qed.

Lemma shape2_zeros_like (T D : nat) (m : matrix R) :
  shape2 T D m -> shape2 T D (zeros_like m).
Proof.
  intros Hm. unfold zeros_like, map2d. apply shape2_map; [|exact Hm].
  intros r. apply length_map.
Qed.

(** The gradients [Concat.backward] hands to layers of one shape. *)
Lemma shape3_fan_out (T D : nat) (ls : list (Input R)) (g : matrix R) :
  Forall (fun l => shape2 T D (output l) /\ shape2 T D (grad l)) ls ->
  0 < T ->
  shape2 T (length ls * D) g ->
  shape3 (length ls) T D (map grad (fan_out g ls)).
Proof.
  intros Hall HT. revert g. induction Hall as [|l ls [Ho Hg] _ IH]; intros g Sg.
  - split; [reflexivity|constructor].
  - cbn [fan_out map length]. rewrite (ncols_shape2 T D _ Ho HT).
    assert (Srest : shape2 T (length ls * D) (map (skipn D) g)).
    { destruct Sg as [Lg Hrows]. split; [now rewrite length_map|].
      apply Forall_forall. intros r Hr. apply in_map_iff in Hr.
      destruct Hr as (r0 & <- & Hin). rewrite Forall_forall in Hrows.
      rewrite length_skipn, (Hrows r0 Hin). simpl. lia. }
    destruct (IH _ Srest) as [Lr Hr]. split.
    + simpl. now rewrite Lr.
    + constructor; [|exact Hr]. cbn [accumulate_grad grad]. unfold madd.
      apply shape2_zip_with2; [exact Hg|].
      destruct Sg as [Lg Hrows]. split; [now rewrite length_map|].
      apply Forall_forall. intros r Hr0. apply in_map_iff in Hr0.
      destruct Hr0 as (r0 & <- & Hin). rewrite Forall_forall in Hrows.
      rewrite length_firstn, (Hrows r0 Hin). simpl. lia.
Qed.

Lemma head_layers_shapes (self : MultiHeadAttention R) (t : tensor3 R)
      (T D : nat) :
  shape3 (Z.to_nat (num_heads self)) T D t -> 0 < T ->
  length (head_layers self t) = Z.to_nat (num_heads self) /\
  Forall (fun l => shape2 T D (output l) /\ shape2 T D (grad l))
         (head_layers self t).
Proof.
  intros St HT. unfold head_layers. split; [now rewrite length_map, length_seq|].
  apply Forall_forall. intros l Hl. apply in_map_iff in Hl.
  destruct Hl as (h & <- & Hh). apply in_seq in Hh.
  pose proof (shape3_nth _ T D t h St (proj2 Hh)) as Sh.
  cbn [Input_set Input_new output grad]. split; [exact Sh|].
  unfold nrows. destruct Sh as [Lh Hrows].
  rewrite Lh, (ncols_shape2 T D _ (conj Lh Hrows) HT). apply shape2_zeros.
Qed.

(** A Projection bound to the caller's layer can always run its backward. *)
Lemma Linear_backward_input (n : lname) (s : MultiHeadAttention R) (x : Input R) :
  X (linears s n) = Some XInput -> x_layer s = Some x ->
  exists s' x', Linear_backward n s = Ok s' /\ x_layer s' = Some x' /\
                linears s' = linears s /\ concat s' = concat s.
Proof.
  intros HX Hx. unfold Linear_backward. rewrite HX. cbn [deref bind X_output].
  rewrite Hx. cbn [deref bind X_accumulate].
  change (x_layer (upd_param _ _ (upd_param _ _ s))) with (x_layer s).
  rewrite Hx. cbn [deref bind]. do 2 eexists.
  split; [reflexivity|]. repeat split; reflexivity.
Qed.

(** A Projection bound to the Concat adapter pushes its input gradient onto
    the adapter. *)
Lemma Linear_backward_concat (n : lname) (s : MultiHeadAttention R) (c : Concat R) :
  X (linears s n) = Some XConcat -> concat s = Some c ->
  exists s',
    Linear_backward n s = Ok s' /\
    concat s' =
      Some (mkConcat (layers_list c) (coutput c)
              (madd (cgrad c)
                 (matmul (lgrad (linears s n))
                    (transpose zero (output (params s (W (linears s n)))))))) /\
    linears s' = linears s /\ x_layer s' = x_layer s /\
    qh s' = qh s /\ kh s' = kh s /\ vh s' = vh s /\ attn s' = attn s /\
    mask s' = mask s /\ d_model s' = d_model s /\ d_k s' = d_k s.
Proof.
  intros HX Hc. unfold Linear_backward. rewrite HX. cbn [deref bind X_output].
  rewrite Hc. cbn [deref bind X_accumulate].
  change (concat (upd_param _ _ (upd_param _ _ s))) with (concat s).
  rewrite Hc. cbn [deref bind]. eexists.
  split; [reflexivity|]. repeat split; reflexivity.
Qed.

(** [backward], from [self.concat.backward()] on, on a block whose caches
    have the shapes a forward pass leaves. *)
Lemma backward_rest_ok
      (s : MultiHeadAttention R) (c : Concat R) (x : Input R)
      (qh' kh' vh' attn' : tensor3 R) (H T D : nat) :
  concat s = Some c -> vh s = Some vh' -> attn s = Some attn' ->
  kh s = Some kh' -> qh s = Some qh' -> x_layer s = Some x ->
  X (linears s Lq) = Some XInput -> X (linears s Lk) = Some XInput ->
  X (linears s Lv) = Some XInput ->
  0 < H -> 0 < T -> 0 < D -> H * D = Z.to_nat (d_model s) ->
  shape3 H T D (map grad (layers_list (Concat_backward c))) ->
  shape3 H T D qh' -> shape3 H T D kh' -> shape3 H T D vh' ->
  shape3 H T T attn' ->
  exists s', backward_rest s = Ok s' /\ concat s' = Some (Concat_backward c).
Proof.
  intros Hc Hv Ha Hk Hq Hx Xq Xk Xv HH HT HD Hw Sst Sq Sk Sv Sa.
  unfold backward_rest. rewrite Hc. cbn [deref bind].
  change (vh (set_concat (Some (Concat_backward c)) s)) with (vh s).
  rewrite Hv. cbn [deref bind].
  change (attn (set_concat (Some (Concat_backward c)) s)) with (attn s).
  rewrite Ha. cbn [deref bind].
  change (kh (set_concat (Some (Concat_backward c)) s)) with (kh s).
  rewrite Hk. cbn [deref bind].
  change (qh (set_concat (Some (Concat_backward c)) s)) with (qh s).
  rewrite Hq. cbn [deref bind].
  change (mask (set_concat (Some (Concat_backward c)) s)) with (mask s).
  set (s0 := set_concat (Some (Concat_backward c)) s).
  set (stacked := map grad (layers_list (Concat_backward c))) in *.
  destruct (grad_shapes s0 stacked qh' kh' vh' attn' (mask s) H T D HT HD
              Sst Sq Sk Sv Sa) as (_ & _ & Gq & Gk & Gv).
  rewrite (combine_heads_ok s0 _ H T D Gq HH Hw). cbn [bind].
  rewrite (combine_heads_ok s0 _ H T D Gk HH Hw). cbn [bind].
  rewrite (combine_heads_ok s0 _ H T D Gv HH Hw). cbn [bind].
  match goal with
  | |- context [Linear_backward Lv ?sA] =>
      destruct (Linear_backward_input Lv sA x Xv Hx)
        as (s1 & x1 & E1 & Hx1 & L1 & C1)
  end.
  rewrite E1. cbn [bind].
  assert (Xk1 : X (linears s1 Lk) = Some XInput) by (rewrite L1; exact Xk).
  destruct (Linear_backward_input Lk s1 x1 Xk1 Hx1)
    as (s2 & x2 & E2 & Hx2 & L2 & C2).
  rewrite E2. cbn [bind].
  assert (Xq2 : X (linears s2 Lq) = Some XInput) by (rewrite L2, L1; exact Xq).
  destruct (Linear_backward_input Lq s2 x2 Xq2 Hx2)
    as (s3 & x3 & E3 & Hx3 & L3 & C3).
  exists s3. split; [exact E3|]. rewrite C3, C2, C1. reflexivity.
Qed.
End IterationRuns.

Section IterationRunsForward.
Context {R : Type} {AR : Arith R} {SM : Softmax R}.

(** What [backward] stacks: the gradients the head layers hold once the
    output Projection and the Concat adapter have run their backward. *)
Definition head_gradients (s : MultiHeadAttention R) (stacked : tensor3 R)
  : Prop :=
  exists s' c,
    Linear_backward Lout s = Ok s' /\ concat s' = Some c /\
    stacked = map grad (layers_list (Concat_backward c)).

(** One [forward] and the [backward] after it, on a well-formed block: both
    return, and this is what [backward] read, computed and stored. *)
Lemma run_facts
      (self : MultiHeadAttention R) (x : Input R) (mask' : option (matrix R))
      (g : matrix R) (T : nat) :
  well_formed self ->
  softmax_keeps_length ->
  1 <= T ->
  shape2 T (Z.to_nat (d_model self)) (output x) ->
  shape2 T (Z.to_nat (d_model self)) g ->
  exists s1 a s2 qh' kh' vh' stacked,
    forward self x mask' = Ok (s1, a) /\
    backward (deposit g s1) = Ok s2 /\
    (qh s1 = Some qh' /\ kh s1 = Some kh' /\ vh s1 = Some vh' /\
     attn s1 = Some a /\ mask s1 = mask') /\
    (shape3 (Z.to_nat (num_heads self)) T (Z.to_nat (d_k self)) qh' /\
     shape3 (Z.to_nat (num_heads self)) T (Z.to_nat (d_k self)) kh' /\
     shape3 (Z.to_nat (num_heads self)) T (Z.to_nat (d_k self)) vh' /\
     shape3 (Z.to_nat (num_heads self)) T T a /\
     shape3 (Z.to_nat (num_heads self)) T (Z.to_nat (d_k self)) stacked) /\
    head_gradients (deposit g s1) stacked /\
    (combine_heads s1
       (grad_qh s1 (grad_scores a (grad_attn stacked vh') mask') kh')
     = Ok (lgrad (linear_q s2)) /\
     combine_heads s1
       (grad_kh s1 (grad_scores a (grad_attn stacked vh') mask') qh')
     = Ok (lgrad (linear_k s2)) /\
     combine_heads s1 (grad_vh a stacked) = Ok (lgrad (linear_v s2))) /\
    (d_model s1 = d_model self /\ num_heads s1 = num_heads self /\
     d_k s1 = d_k self) /\
    exists c2, concat s2 = Some c2.
Proof.
  intros Hwf Hsoft HT Hx Hg.
  destruct (well_formed_dims self Hwf) as (Hw & HH & Hdk & HD).
  assert (Hv : valid_config self) by apply Hwf.
  destruct (split_heads_shape self _ T Hv (shape2_proj self Lq _ T Hwf Hx))
    as (q & Eq & Sq).
  destruct (split_heads_shape self _ T Hv (shape2_proj self Lk _ T Hwf Hx))
    as (k & Ek & Sk).
  destruct (split_heads_shape self _ T Hv (shape2_proj self Lv _ T Hwf Hx))
    as (v & Ev & Sv).
  destruct (forward_ok self x mask' q k v Eq Ek Ev) as (s1 & Hf & Hpost).
  destruct (attention_shapes self q k v mask' _ T _ Hsoft HT Hdk Sq Sk Sv)
    as [Sout Sattn].
  destruct Hpost as ((F1 & F2 & F3 & Fp & Fl) & (X1 & X2 & X3 & X4) & _ & Hxl
                     & (C1 & C2 & C3 & C4 & C5 & C6)).
  cbv zeta in C6.
  set (a := snd (scaled_dot_product_attention self q k v mask')) in *.
  set (out := fst (scaled_dot_product_attention self q k v mask')) in *.
  set (c := Concat_forward (Concat_new (head_layers self out))) in *.
  destruct (Linear_backward_concat Lout (deposit g s1) c X4 C6)
    as (s1' & E1 & Hc' & Hl' & Hxl' & Q' & K' & V' & A' & M' & D' & DK').
  set (H := Z.to_nat (num_heads self)) in *.
  set (dk := Z.to_nat (d_k self)) in *.
  destruct (head_layers_shapes self out T dk Sout HT) as [Lhl Hhl].
  fold H in Lhl.
  destruct Hwf as (_ & _ & Hshapes).
  set (gX := matmul (lgrad (linears (deposit g s1) Lout))
               (transpose zero
                  (output (params (deposit g s1)
                             (W (linears (deposit g s1) Lout)))))) in *.
  assert (SgX : shape2 T (H * dk) gX).
  { unfold gX. rewrite <- Hw.
    apply (shape2_matmul T (Z.to_nat (d_model self))); [apply Hg| |exact HD].
    apply shape2_transpose; [|exact HD].
    change (params (deposit g s1)) with (params s1).
    change (W (linears (deposit g s1) Lout)) with (W (linears s1 Lout)).
    rewrite Fp. destruct (Fl Lout) as (-> & _). apply Hshapes. }
  assert (Sc : shape2 T (H * dk) (madd (cgrad c) gX)).
  { unfold madd. apply shape2_zip_with2; [|exact SgX].
    unfold c. cbn [Concat_forward Concat_new cgrad].
    apply shape2_zeros_like.
    rewrite (head_layers_outputs self out) by apply Sout.
    now apply shape2_hcat. }
  set (c' := mkConcat (layers_list c) (coutput c) (madd (cgrad c) gX)) in *.
  set (stacked := map grad (layers_list (Concat_backward c'))).
  assert (Sst : shape3 H T dk stacked).
  { unfold stacked, c'. cbn [Concat_backward layers_list cgrad]. unfold c.
    cbn [Concat_forward Concat_new layers_list]. rewrite <- Lhl.
    apply shape3_fan_out; [exact Hhl|lia|]. rewrite Lhl. exact Sc. }
  destruct (backward_rest_ok s1' c' x q k v a H T dk) as (s2 & E2 & Hc2);
    try assumption; try lia.
  - rewrite V'. exact C3.
  - rewrite A'. exact C4.
  - rewrite K'. exact C2.
  - rewrite Q'. exact C1.
  - rewrite Hxl'. exact Hxl.
  - rewrite Hl'. exact X1.
  - rewrite Hl'. exact X2.
  - rewrite Hl'. exact X3.
  - rewrite D'. change (d_model (deposit g s1)) with (d_model s1).
    rewrite F1. now symmetry.
  - exists s1, a, s2, q, k, v, stacked.
    split; [exact Hf|].
    split; [unfold backward; rewrite E1; exact E2|].
    split; [exact (conj C1 (conj C2 (conj C3 (conj C4 C5))))|].
    split; [exact (conj Sq (conj Sk (conj Sv (conj Sattn Sst))))|].
    split; [exists s1', c'; split; [exact E1|split; [exact Hc'|reflexivity]]|].
    split; [|split; [exact (conj F1 (conj F2 F3))|eexists; exact Hc2]].
    destruct (backward_rest_inv s1' s2 E2)
      as (c0 & v0 & a0 & k0 & q0 & gq & gk & gv & Ec & Ev' & Ea & Ek' & Eq'
          & Hq & Hk & Hv' & <- & <- & <- & _).
    cbv zeta in Hq, Hk, Hv'.
    rewrite Hc' in Ec. injection Ec as <-.
    rewrite V' in Ev'. change (vh (deposit g s1)) with (vh s1) in Ev'.
    rewrite C3 in Ev'. injection Ev' as <-.
    rewrite A' in Ea. change (attn (deposit g s1)) with (attn s1) in Ea.
    rewrite C4 in Ea. injection Ea as <-.
    rewrite K' in Ek'. change (kh (deposit g s1)) with (kh s1) in Ek'.
    rewrite C2 in Ek'. injection Ek' as <-.
    rewrite Q' in Eq'. change (qh (deposit g s1)) with (qh s1) in Eq'.
    rewrite C1 in Eq'. injection Eq' as <-.
    rewrite M' in Hq, Hk. change (mask (deposit g s1)) with (mask s1) in Hq, Hk.
    rewrite C5 in Hq, Hk.
    rewrite (combine_heads_config s1 s1') in Hq, Hk, Hv' by exact D'.
    unfold grad_qh, grad_kh, factor in *. rewrite DK' in Hq, Hk.
    change (d_k (deposit g s1)) with (d_k s1) in Hq, Hk.
    fold c' in Hq, Hk, Hv'. fold stacked in Hq, Hk, Hv'.
    split; [exact Hq|]. split; [exact Hk|exact Hv'].
Qed.

(** X14: forward, then backward, then [clear_grad] run to the end.  On a
    well-formed block (the constructor returns one), for an input of
    [T >= 1] positions, without a mask or with a [T x T] mask, and an
    upstream gradient of the shape of the output, [forward] succeeds,
    [backward] succeeds on the block it leaves once the gradient is
    deposited, and [clear_grad] succeeds after it; the softmax is only
    asked to keep the length of a row. *)
Theorem iteration_runs
        (self : MultiHeadAttention R) (x : Input R) (mask' : option (matrix R))
        (g : matrix R) (T : nat) :
  well_formed self ->
  softmax_keeps_length ->
  1 <= T ->
  shape2 T (Z.to_nat (d_model self)) (output x) ->
  shape2 T (Z.to_nat (d_model self)) g ->
  mask_shape T T mask' ->
  exists s1 a s2 s3,
    forward self x mask' = Ok (s1, a) /\
    backward (deposit g s1) = Ok s2 /\
    clear_grad s2 = Ok s3.
Proof.
  intros Hwf Hsoft HT Hx Hg _.
  destruct (run_facts self x mask' g T Hwf Hsoft HT Hx Hg)
    as (s1 & a & s2 & _ & _ & _ & _ & Hf & Hb & _ & _ & _ & _ & _ & c2 & Hc2).
  destruct (clear_grad_with_concat s2 c2 Hc2) as (s3 & E3 & _).
  exists s1, a, s2, s3. repeat split; assumption.
Qed.

(** C2: on a well-formed block, after a [forward] on [T >= 1] positions
    (without a mask or with a [T x T] mask) and the [backward] that follows
    it, the gradient of the scores that [backward] computed is, entry by
    entry, [attn * (grad_attn - rowsum (grad_attn * attn))] on the weights
    and the mask the [forward] cached, the sum running over the key axis of
    the row, and exactly [zero] wherever the cached mask is 0; and it is the
    tensor whose products with the cached [kh] and [qh] end in the gradient
    slots of the Q and K Projections. *)
Theorem backward_grad_scores
        (self s1 s2 : MultiHeadAttention R) (x : Input R)
        (mask' : option (matrix R)) (a : tensor3 R) (g : matrix R) (T : nat) :
  well_formed self ->
  softmax_keeps_length ->
  1 <= T ->
  shape2 T (Z.to_nat (d_model self)) (output x) ->
  shape2 T (Z.to_nat (d_model self)) g ->
  mask_shape T T mask' ->
  forward self x mask' = Ok (s1, a) ->
  backward (deposit g s1) = Ok s2 ->
  exists stacked qh' kh' vh',
    (qh s1 = Some qh' /\ kh s1 = Some kh' /\ vh s1 = Some vh' /\
     attn s1 = Some a /\ mask s1 = mask') /\
    head_gradients (deposit g s1) stacked /\
    let grad_attn' := grad_attn stacked vh' in
    let grad_scores' := grad_scores a grad_attn' mask' in
    (forall h i j, h < Z.to_nat (num_heads self) -> i < T -> j < T ->
       nth j (nth i (nth h grad_scores' []) []) zero =
       if mask_zero mask' i j then zero
       else mul (nth j (nth i (nth h a []) []) zero)
                (sub (nth j (nth i (nth h grad_attn' []) []) zero)
                     (rsum (zip_with mul (nth i (nth h grad_attn' []) [])
                                         (nth i (nth h a []) []))))) /\
    combine_heads s1 (grad_qh s1 grad_scores' kh') = Ok (lgrad (linear_q s2)) /\
    combine_heads s1 (grad_kh s1 grad_scores' qh') = Ok (lgrad (linear_k s2)).
Proof.
  intros Hwf Hsoft HT Hx Hg Sm Hf Hb.
  destruct (well_formed_dims self Hwf) as (_ & _ & Hdk & _).
  destruct (run_facts self x mask' g T Hwf Hsoft HT Hx Hg)
    as (s1_ & a_ & s2_ & q & k & v & stacked & Hf_ & Hb_ & Hc & Hs & Hst & Hl
        & _ & _).
  rewrite Hf in Hf_. injection Hf_ as <- <-.
  rewrite Hb in Hb_. injection Hb_ as <-.
  destruct Hs as (Sq & Sk & Sv & Sa & Sst).
  destruct Hl as (Lq' & Lk' & _).
  exists stacked, q, k, v. split; [exact Hc|]. split; [exact Hst|].
  cbv zeta. split; [|split; assumption].
  intros h i j Hh Hi Hj.
  rewrite <- (masked_mask_zero mask' T T i j Sm Hi Hj).
  apply (grad_scores_entry a (grad_attn stacked v) mask'
           (Z.to_nat (num_heads self)) T h i j); try assumption.
  unfold grad_attn.
  apply (shape3_bmm _ T (Z.to_nat (d_k self)) (Z.to_nat (d_k self)) T);
    try assumption.
  apply shape3_transpose_last; [exact Sv|lia].
Qed.

End IterationRunsForward.

(** ** What [backward] leaves alone *)

Section BackwardKeeps.
Context {R : Type} {AR : Arith R}.

(** What no step of [backward] writes: the configuration, the value of a
    Parameter, the cached forward state, and of each Projection everything
    but its gradient slot. *)
Definition backward_keeps (s s' : MultiHeadAttention R) : Prop :=
  d_model s' = d_model s /\ num_heads s' = num_heads s /\ d_k s' = d_k s /\
  (forall p, output (params s' p) = output (params s p)) /\
  qh s' = qh s /\ kh s' = kh s /\ vh s' = vh s /\ attn s' = attn s /\
  mask s' = mask s /\
  (forall n, X (linears s' n) = X (linears s n) /\
             W (linears s' n) = W (linears s n) /\
             b (linears s' n) = b (linears s n) /\
             loutput (linears s' n) = loutput (linears s n)).

Lemma backward_frame_keeps (s s' : MultiHeadAttention R) :
  backward_frame s s' -> backward_keeps s s'.
Proof.
  intros (A1 & A2 & A3 & A4 & A5 & A6 & A7 & A8 & A9 & A10).
  unfold backward_keeps. repeat split; try assumption; now rewrite A5.
Qed.

Lemma backward_keeps_trans (s1 s2 s3 : MultiHeadAttention R) :
  backward_keeps s1 s2 -> backward_keeps s2 s3 -> backward_keeps s1 s3.
Proof.
  intros (A1 & A2 & A3 & A4 & A5 & A6 & A7 & A8 & A9 & A10)
         (B1 & B2 & B3 & B4 & B5 & B6 & B7 & B8 & B9 & B10).
  unfold backward_keeps.
  rewrite B1, B2, B3, B5, B6, B7, B8, B9.
  repeat split; try assumption.
  - intros p. now rewrite B4.
  - destruct (B10 n) as (-> & _). apply A10.
  - destruct (B10 n) as (_ & -> & _). apply A10.
  - destruct (B10 n) as (_ & _ & -> & _). apply A10.
  - destruct (B10 n) as (_ & _ & _ & ->). apply A10.
Qed.

Lemma backward_rest_keeps (s s'' : MultiHeadAttention R) :
  backward_rest s = Ok s'' -> backward_keeps s s''.
Proof.
  unfold backward_rest. intros Hb.
  destruct (concat s) as [c|] eqn:Ec; [|discriminate Hb]. cbn [deref bind] in Hb.
  change (vh (set_concat (Some (Concat_backward c)) s)) with (vh s) in Hb.
  destruct (vh s) as [vh'|] eqn:Ev; [|discriminate Hb]. cbn [deref bind] in Hb.
  change (attn (set_concat (Some (Concat_backward c)) s)) with (attn s) in Hb.
  destruct (attn s) as [attn'|] eqn:Ea; [|discriminate Hb]. cbn [deref bind] in Hb.
  change (kh (set_concat (Some (Concat_backward c)) s)) with (kh s) in Hb.
  destruct (kh s) as [kh'|] eqn:Ek; [|discriminate Hb]. cbn [deref bind] in Hb.
  change (qh (set_concat (Some (Concat_backward c)) s)) with (qh s) in Hb.
  destruct (qh s) as [qh'|] eqn:Eq; [|discriminate Hb]. cbn [deref bind] in Hb.
  set (s0 := set_concat (Some (Concat_backward c)) s) in *.
  destruct (combine_heads s0 _) as [gq|] in Hb; [|discriminate Hb].
  cbn [bind] in Hb.
  destruct (combine_heads s0 _) as [gk|] in Hb; [|discriminate Hb].
  cbn [bind] in Hb.
  destruct (combine_heads s0 _) as [gv|] in Hb; [|discriminate Hb].
  cbn [bind] in Hb.
  set (sA := set_linear_grad Lv gv
               (set_linear_grad Lk gk (set_linear_grad Lq gq s0))) in *.
  destruct (Linear_backward Lv sA) as [s1|] eqn:E1; [|discriminate Hb].
  cbn [bind] in Hb.
  destruct (Linear_backward Lk s1) as [s2|] eqn:E2; [|discriminate Hb].
  cbn [bind] in Hb.
  apply Linear_backward_frame in E1, E2, Hb.
  pose proof (backward_frame_keeps _ _
                (backward_frame_trans _ _ _ (backward_frame_trans _ _ _ E1 E2) Hb))
    as HA.
  apply (backward_keeps_trans s sA s''); [|exact HA].
  unfold backward_keeps.
  repeat split; try reflexivity; destruct n; reflexivity.
Qed.

(** X15: a successful [backward] changes no configuration field, no value
    of a Parameter, none of the cached [qh], [kh], [vh], [attn], [mask], and
    on each Projection neither what it is bound to nor its cached output:
    it writes gradients only. *)
Theorem backward_writes_gradients_only (s s'' : MultiHeadAttention R) :
  backward s = Ok s'' -> backward_keeps s s''.
Proof.
  intros Hb. destruct (backward_inv s s'' Hb) as (s1 & _ & Hfr & Hrest).
  apply (backward_keeps_trans s s1 s'').
  - now apply backward_frame_keeps.
  - now apply backward_rest_keeps.
Qed.
End BackwardKeeps.

(** * A model of the scalars: uninterpreted terms

    Every operation of the element type and of the tensor library is a
    constructor, so a run of the block on these scalars records what was
    computed from what. *)

#[warnings="-register-all"]
Inductive sym : Type :=
| SInt (z : Z)
| SVar (tensor i j : nat)
| SNegInf
| SAdd (a c : sym)
| SSub (a c : sym)
| SMul (a c : sym)
| SDiv (a c : sym)
| SSqrt (a : sym)
| SDot (u v : list sym)
| SSum (u : list sym)
| SSoftmax (u : list sym) (i : nat).

Definition sym_is_zero (x : sym) : bool :=
  match x with
  | SInt 0 => true
  | _ => false
  end.

Definition is_neg_inf (x : sym) : bool :=
  match x with
  | SNegInf => true
  | _ => false
  end.

(** Softmax on terms: weight zero for an entry at negative infinity in a row
    that has another kind of entry, and an uninterpreted weight elsewhere. *)
Definition sym_softmax_row (r : list sym) : list sym :=
  map (fun i => if is_neg_inf (nth i r (SInt 0)) &&
                   existsb (fun x => negb (is_neg_inf x)) r
                then SInt 0 else SSoftmax r i)
      (seq 0 (length r)).

#[global] Instance sym_Arith : Arith sym := {|
  zero := SInt 0;
  one := SInt 1;
  add := SAdd;
  sub := SSub;
  mul := SMul;
  div := SDiv;
  sqrt := SSqrt;
  of_int := SInt;
  is_zero := sym_is_zero;
  dotprod := SDot;
  rsum := SSum
|}.

#[global] Instance sym_Softmax : Softmax sym := {|
  neg_inf := SNegInf;
  softmax_row := sym_softmax_row
|}.

Definition run {A : Type} (d : A) (r : result A) : A :=
  match r with
  | Ok a => a
  | Raise _ => d
  end.

Definition pcode (p : pname) : nat :=
  match p with
  | PW_q => 1 | Pb_q => 2 | PW_k => 3 | Pb_k => 4
  | PW_v => 5 | Pb_v => 6 | PW_o => 7 | Pb_o => 8
  end.

(** A block of width 4 with 2 heads, an input of 2 positions, a causal mask
    and an upstream gradient. *)
Definition rnd0 (p : pname) (i j : nat) : sym := SVar (pcode p) i j.

Definition no_block : MultiHeadAttention sym :=
  mkMHA 0 0 0 (fun _ => mkInput [] []) (fun _ => mkLinear None PW_q Pb_q [] [])
        None None None None None None None.

Definition block0 : MultiHeadAttention sym := run no_block (init 4 2 rnd0).

Definition x0 : Input sym := mkInput (tabulate 2 4 (SVar 0)) (zeros 2 4 (SInt 0)).

Definition mask0 : option (matrix sym) :=
  Some [[SInt 1; SInt 0]; [SInt 1; SInt 1]].

Definition g0 : matrix sym := tabulate 2 4 (SVar 9).

Definition after_forward0 : MultiHeadAttention sym * tensor3 sym :=
  run (no_block, []) (forward block0 x0 mask0).

Definition after_backward0 : MultiHeadAttention sym :=
  run no_block (backward (deposit g0 (fst after_forward0))).

Lemma sym_softmax_keeps_length : softmax_keeps_length (R := sym).
Proof.
  intros r. cbn. unfold sym_softmax_row. now rewrite length_map, length_seq.
Qed.

Lemma sym_softmax_drops_neg_inf : softmax_drops_neg_inf (R := sym).
Proof.
  intros r j Hj Hr (j' & Hj' & Hne). cbn in *. unfold sym_softmax_row.
  rewrite (nth_map_lt _ (seq 0 (length r)) 0 (SInt 0) (n := j))
    by (rewrite length_seq; exact Hj).
  rewrite seq_nth by exact Hj. cbn [plus]. rewrite Hr. cbn [is_neg_inf andb].
  replace (existsb (fun x => negb (is_neg_inf x)) r) with true; [reflexivity|].
  symmetry. apply existsb_exists. exists (nth j' r (SInt 0)).
  split; [now apply nth_In|].
  destruct (nth j' r (SInt 0)); try reflexivity. now contradiction Hne.
Qed.

(** ** The theorems at work on the concrete block *)

Lemma forward0_runs :
  forward block0 x0 mask0 = Ok (fst after_forward0, snd after_forward0).
Proof. vm_compute. reflexivity. Qed.

Lemma combine_heads_split_heads_witness :
  (xh <- split_heads block0 (output x0) ;; combine_heads block0 xh)
  = Ok (output x0).
Proof.
  apply (@combine_heads_split_heads sym block0 (output x0) 2).
  - unfold valid_config. cbn. lia.
  - lia.
  - split; [reflexivity|]. repeat constructor.
Defined.

Lemma init_fails_iff_not_divisible_witness :
  ((exists e, init 4 2 rnd0 = Raise e) <-> (4 mod 2 <> 0)%Z) /\
  ((4 mod 2 <> 0)%Z -> init 4 2 rnd0 = Raise AssertionError) /\
  ((4 mod 2 = 0)%Z ->
   exists self, init 4 2 rnd0 = Ok self /\ fresh self 4 2).
Proof.
  apply (@init_fails_iff_not_divisible sym sym_Arith 4 2 rnd0); reflexivity.
Defined.

Lemma fresh_block_clear_grad_backward_raise_witness :
  clear_grad block0 = Raise AttributeError /\
  backward block0 = Raise AttributeError.
Proof.
  apply (@fresh_block_clear_grad_backward_raise sym sym_Arith 4 2 rnd0 block0).
  reflexivity.
Defined.

Lemma forward_changes_no_parameter_witness :
  d_model (fst after_forward0) = d_model block0 /\
  num_heads (fst after_forward0) = num_heads block0 /\
  d_k (fst after_forward0) = d_k block0 /\
  (forall p, In p all_params ->
             params (fst after_forward0) p = params block0 p) /\
  (forall n, W (linears (fst after_forward0) n) = W (linears block0 n) /\
             b (linears (fst after_forward0) n) = b (linears block0 n) /\
             lgrad (linears (fst after_forward0) n) = lgrad (linears block0 n)).
Proof.
  apply (forward_changes_no_parameter block0 (fst after_forward0) x0 mask0
           (snd after_forward0)).
  vm_compute. reflexivity.
Defined.


Lemma forward_shape_law_witness :
  exists s' a, forward block0 x0 mask0 = Ok (s', a) /\
    shape2 2 (Z.to_nat (d_model block0)) (loutput (linear_out s')) /\
    shape3 (Z.to_nat (num_heads block0)) 2 2 a.
Proof.
  apply (forward_shape_law block0 x0 mask0 2).
  - apply (init_well_formed 4 2 rnd0 block0); reflexivity.
  - exact sym_softmax_keeps_length.
  - lia.
  - split; [reflexivity|]. repeat constructor.
  - split; [reflexivity|]. repeat constructor.
Defined.

(** Heads of shape 2 x 2 x 2. *)
Definition heads0 (t : nat) : tensor3 sym :=
  [tabulate 2 2 (SVar t); tabulate 2 2 (SVar (S t))].

Lemma shape3_heads0 (t : nat) : shape3 2 2 2 (heads0 t).
Proof. split; [reflexivity|]. repeat constructor. Qed.

Lemma block0_well_formed : well_formed block0.
Proof. apply (init_well_formed 4 2 rnd0 block0); reflexivity. Qed.

Lemma block0_d_k_nonneg : (0 <= d_k block0)%Z.
Proof. vm_compute. discriminate. Qed.

Lemma shape2_x0 : shape2 2 (Z.to_nat (d_model block0)) (output x0).
Proof. split; [reflexivity|]. repeat constructor. Qed.

Lemma shape2_g0 : shape2 2 (Z.to_nat (d_model block0)) g0.
Proof. split; [reflexivity|]. repeat constructor. Qed.

Lemma mask_shape_mask0 : mask_shape 2 2 mask0.
Proof. split; [reflexivity|]. repeat constructor. Qed.

Lemma backward0_runs :
  backward (deposit g0 (fst after_forward0)) = Ok after_backward0.
Proof. vm_compute. reflexivity. Qed.


Lemma backward_grad_scores_witness :
  exists stacked qh' kh' vh',
    (qh (fst after_forward0) = Some qh' /\ kh (fst after_forward0) = Some kh' /\
     vh (fst after_forward0) = Some vh' /\
     attn (fst after_forward0) = Some (snd after_forward0) /\
     mask (fst after_forward0) = mask0) /\
    head_gradients (deposit g0 (fst after_forward0)) stacked /\
    let grad_attn' := grad_attn stacked vh' in
    let grad_scores' := grad_scores (snd after_forward0) grad_attn' mask0 in
    (forall h i j, h < Z.to_nat (num_heads block0) -> i < 2 -> j < 2 ->
       nth j (nth i (nth h grad_scores' []) []) zero =
       if mask_zero mask0 i j then zero
       else mul (nth j (nth i (nth h (snd after_forward0) []) []) zero)
                (sub (nth j (nth i (nth h grad_attn' []) []) zero)
                     (rsum (zip_with mul (nth i (nth h grad_attn' []) [])
                                         (nth i (nth h (snd after_forward0) [])
                                              []))))) /\
    combine_heads (fst after_forward0)
      (grad_qh (fst after_forward0) grad_scores' kh')
    = Ok (lgrad (linear_q after_backward0)) /\
    combine_heads (fst after_forward0)
      (grad_kh (fst after_forward0) grad_scores' qh')
    = Ok (lgrad (linear_k after_backward0)).
Proof.
  apply (backward_grad_scores block0 (fst after_forward0) after_backward0 x0
           mask0 (snd after_forward0) g0 2).
  - exact block0_well_formed.
  - exact sym_softmax_keeps_length.
  - lia.
  - exact shape2_x0.
  - exact shape2_g0.
  - exact mask_shape_mask0.
  - exact forward0_runs.
  - exact backward0_runs.
Defined.


(** * A model of the scalars: real numbers

    Exact arithmetic, where multiplying by [1 / sqrt(d_k)] is dividing by
    [sqrt(d_k)]. *)

Definition real_is_zero (x : Rdefinitions.R) : bool :=
  if RIneq.Req_dec_T x (Rdefinitions.IZR 0) then true else false.

#[global] Instance real_Arith : Arith Rdefinitions.R := {|
  zero := Rdefinitions.IZR 0;
  one := Rdefinitions.IZR 1;
  add := Rdefinitions.Rplus;
  sub := Rdefinitions.Rminus;
  mul := Rdefinitions.Rmult;
  div := Rdefinitions.Rdiv;
  sqrt := R_sqrt.sqrt;
  of_int := Rdefinitions.IZR;
  is_zero := real_is_zero;
  dotprod := fun u v =>
    fold_right Rdefinitions.Rplus (Rdefinitions.IZR 0)
               (zip_with Rdefinitions.Rmult u v);
  rsum := fold_right Rdefinitions.Rplus (Rdefinitions.IZR 0)
|}.

Lemma real_reciprocal_is_division (self : MultiHeadAttention Rdefinitions.R) :
  reciprocal_is_division self.
Proof.
  intros x. unfold factor. cbn. unfold Rdefinitions.Rdiv.
  now rewrite Raxioms.Rmult_1_l.
Qed.

(** * A model of the scalars: binary64

    The floating-point numbers of the kernel, with every reduction taken
    from left to right.  Here multiplying by [1.0 / sqrt(d_k)] is not always
    dividing by [sqrt(d_k)], and a softmax over negative infinities alone is
    not a number. *)

Definition float_of_int (z : Z) : PrimFloat.float :=
  match z with
  | Z0 => PrimFloat.zero
  | Zpos _ => PrimFloat.of_uint63 (Uint63.of_Z z)
  | Zneg p => PrimFloat.opp (PrimFloat.of_uint63 (Uint63.of_Z (Zpos p)))
  end.

#[global] Instance float_Arith : Arith PrimFloat.float := {|
  zero := PrimFloat.zero;
  one := PrimFloat.one;
  add := PrimFloat.add;
  sub := PrimFloat.sub;
  mul := PrimFloat.mul;
  div := PrimFloat.div;
  sqrt := PrimFloat.sqrt;
  of_int := float_of_int;
  is_zero := fun x => PrimFloat.eqb x PrimFloat.zero;
  dotprod := fun u v =>
    fold_left PrimFloat.add (zip_with PrimFloat.mul u v) PrimFloat.zero;
  rsum := fun u => fold_left PrimFloat.add u PrimFloat.zero
|}.

(** [e^x]: exact at the infinities, a series after ten halvings elsewhere
    (an approximation of the library's [exp]); a NaN goes through every
    operation and comes out a NaN. *)
Definition float_exp (x : PrimFloat.float) : PrimFloat.float :=
  if PrimFloat.eqb x PrimFloat.neg_infinity then PrimFloat.zero
  else if PrimFloat.eqb x PrimFloat.infinity then PrimFloat.infinity
  else
    let y := PrimFloat.div x (float_of_int 1024) in
    let series :=
      fold_right
        (fun n acc =>
           PrimFloat.add PrimFloat.one
                         (PrimFloat.mul (PrimFloat.div y (float_of_int n)) acc))
        PrimFloat.one
        [1; 2; 3; 4; 5; 6; 7; 8; 9; 10; 11; 12]%Z in
    Nat.iter 10 (fun t => PrimFloat.mul t t) series.

Definition float_max (r : list PrimFloat.float) : PrimFloat.float :=
  fold_left (fun a x => if PrimFloat.ltb a x then x else a) r
            PrimFloat.neg_infinity.

(** [torch.softmax] on one row: [exp(x_i - max) / sum_j exp(x_j - max)]. *)
Definition float_softmax_row (r : list PrimFloat.float)
  : list PrimFloat.float :=
  let m := float_max r in
  let e := map (fun x => float_exp (PrimFloat.sub x m)) r in
  let s := fold_left PrimFloat.add e PrimFloat.zero in
  map (fun y => PrimFloat.div y s) e.

#[global] Instance float_Softmax : Softmax PrimFloat.float := {|
  neg_inf := PrimFloat.neg_infinity;
  softmax_row := float_softmax_row
|}.






(** ** The further properties at work on the concrete block *)

Lemma block0_valid_config : valid_config block0.
Proof. unfold valid_config. cbn. lia. Qed.

(** A mask with no zero, and a mask that forbids every key to query 0. *)
Definition mask_ones : matrix sym := [[SInt 1; SInt 1]; [SInt 1; SInt 1]].

Lemma split_heads_entries_witness :
  exists t,
    split_heads block0 (output x0) = Ok t /\
    shape3 (Z.to_nat (num_heads block0)) 2 (Z.to_nat (d_k block0)) t /\
    forall h i e,
      h < Z.to_nat (num_heads block0) -> i < 2 -> e < Z.to_nat (d_k block0) ->
      nth e (nth i (nth h t []) []) zero =
      nth (h * Z.to_nat (d_k block0) + e) (nth i (output x0) []) zero.
Proof.
  apply (split_heads_entries block0 (output x0) 2 zero).
  - exact block0_valid_config.
  - split; [reflexivity|]. repeat constructor.
Defined.

Lemma split_heads_raises_iff_witness :
  ((exists t, split_heads block0 (output x0) = Ok t) <->
   Forall (fun r => length r =
                    Z.to_nat (num_heads block0) * Z.to_nat (d_k block0))
          (output x0)) /\
  (split_heads block0 (output x0) = Raise RuntimeError <->
   exists r, In r (output x0) /\
             length r <> Z.to_nat (num_heads block0) * Z.to_nat (d_k block0)) /\
  (exists t, split_heads block0 [] = Ok t /\
             shape3 (Z.to_nat (num_heads block0)) 0 (Z.to_nat (d_k block0)) t).
Proof.
  apply (split_heads_raises_iff block0 (output x0)).
  - vm_compute. discriminate.
  - exact block0_d_k_nonneg.
Defined.

Lemma combine_heads_entries_witness :
  exists m,
    combine_heads block0 (heads0 11) = Ok m /\
    shape2 2 (Z.to_nat (d_model block0)) m /\
    forall h i e, h < 2 -> i < 2 -> e < 2 ->
      nth (h * 2 + e) (nth i m []) zero =
      nth e (nth i (nth h (heads0 11) []) []) zero.
Proof.
  apply (combine_heads_entries block0 (heads0 11) 2 2 2 zero).
  - apply shape3_heads0.
  - lia.
  - reflexivity.
Defined.

Lemma split_heads_combine_heads_witness :
  (m <- combine_heads block0 (heads0 11) ;; split_heads block0 m)
  = Ok (heads0 11).
Proof.
  apply (split_heads_combine_heads block0 (heads0 11) 2).
  - exact block0_valid_config.
  - apply shape3_heads0.
Defined.

Lemma combine_heads_raises_iff_witness :
  ((exists m, combine_heads block0 [tabulate 2 2 (SVar 11)] = Ok m) <->
   1 * 2 = Z.to_nat (d_model block0)) /\
  (combine_heads block0 [tabulate 2 2 (SVar 11)] = Raise RuntimeError <->
   1 * 2 <> Z.to_nat (d_model block0)).
Proof.
  apply (combine_heads_raises_iff block0 [tabulate 2 2 (SVar 11)] 1 2 2).
  - split; [reflexivity|]. repeat constructor.
  - lia.
  - lia.
Defined.

Lemma attention_mask_without_zero_witness :
  scaled_dot_product_attention block0 (heads0 11) (heads0 13) (heads0 15)
    (Some mask_ones) =
  scaled_dot_product_attention block0 (heads0 11) (heads0 13) (heads0 15) None.
Proof.
  apply (attention_mask_without_zero block0 (heads0 11) (heads0 13) (heads0 15)
           mask_ones 2 2 2 2); try lia; try apply shape3_heads0.
  - exact block0_d_k_nonneg.
  - split; [reflexivity|]. repeat constructor.
  - intros [|[|i]] [|[|j]] Hi Hj; try lia; reflexivity.
Defined.


Lemma attention_result_shapes_witness :
  shape3 2 2 2 (fst (scaled_dot_product_attention block0 (heads0 11) (heads0 13)
                       (heads0 15) mask0)) /\
  shape3 2 2 2 (snd (scaled_dot_product_attention block0 (heads0 11) (heads0 13)
                       (heads0 15) mask0)).
Proof.
  apply (attention_result_shapes block0 (heads0 11) (heads0 13) (heads0 15)
           mask0 2 2 2 2 2); try lia; try apply shape3_heads0.
  - exact block0_d_k_nonneg.
  - exact sym_softmax_keeps_length.
  - exact mask_shape_mask0.
Defined.

Lemma backward_gradient_shapes_witness :
  exists grad_q grad_k grad_v,
    combine_heads block0
      (grad_qh block0
         (grad_scores (heads0 17) (grad_attn (heads0 19) (heads0 15)) mask0)
         (heads0 13)) = Ok grad_q /\
    combine_heads block0
      (grad_kh block0
         (grad_scores (heads0 17) (grad_attn (heads0 19) (heads0 15)) mask0)
         (heads0 11)) = Ok grad_k /\
    combine_heads block0 (grad_vh (heads0 17) (heads0 19)) = Ok grad_v /\
    shape2 2 (Z.to_nat (d_model block0)) grad_q /\
    shape2 2 (Z.to_nat (d_model block0)) grad_k /\
    shape2 2 (Z.to_nat (d_model block0)) grad_v.
Proof.
  apply (backward_gradient_shapes block0 (heads0 19) (heads0 11) (heads0 13)
           (heads0 15) (heads0 17) mask0 2 2 2); try lia;
    try apply shape3_heads0.
  - reflexivity.
  - exact mask_shape_mask0.
  - reflexivity.
Defined.

Lemma init_then_split_heads_witness :
  d_model block0 = (num_heads block0 * d_k block0)%Z /\ (1 <= d_k block0)%Z /\
  exists t, split_heads block0 (output x0) = Ok t /\
            shape3 (Z.to_nat 2) 2 (Z.to_nat (4 / 2)) t.
Proof.
  apply (init_then_split_heads 4 2 rnd0 block0 (output x0) 2);
    try reflexivity.
  split; [reflexivity|]. repeat constructor.
Defined.

Lemma forward_caches_witness :
  attn (fst after_forward0) = Some (snd after_forward0) /\
  mask (fst after_forward0) = mask0.
Proof.
  destruct (forward_caches block0 (fst after_forward0) x0 mask0
              (snd after_forward0) forward0_runs) as (Ha & Hm & _).
  split; [exact Ha|exact Hm].
Defined.

Lemma clear_grad_after_forward_witness :
  exists s2, clear_grad (fst after_forward0) = Ok s2 /\
    (forall p, output (params s2 p) = output (params block0 p) /\
               grad (params s2 p) = zeros_like (grad (params block0 p))).
Proof.
  destruct (clear_grad_after_forward block0 (fst after_forward0) x0 mask0
              (snd after_forward0) forward0_runs) as (s2 & E & Hp & _).
  exists s2. split; [exact E|exact Hp].
Defined.

Lemma backward_projection_grads_witness :
  exists gs kh',
    kh (deposit g0 (fst after_forward0)) = Some kh' /\
    combine_heads (deposit g0 (fst after_forward0))
      (grad_qh (deposit g0 (fst after_forward0)) gs kh')
    = Ok (lgrad (linear_q after_backward0)).
Proof.
  destruct (backward_projection_grads (deposit g0 (fst after_forward0))
              after_backward0 backward0_runs)
    as (s1 & c & v & a & k & q & _ & _ & _ & _ & Hk & _ & Hq & _).
  eexists. exists k. split; [exact Hk|exact Hq].
Defined.

Lemma iteration_runs_witness :
  exists s1 a s2 s3,
    forward block0 x0 mask0 = Ok (s1, a) /\
    backward (deposit g0 s1) = Ok s2 /\
    clear_grad s2 = Ok s3.
Proof.
  apply (iteration_runs block0 x0 mask0 g0 2).
  - exact block0_well_formed.
  - exact sym_softmax_keeps_length.
  - lia.
  - exact shape2_x0.
  - exact shape2_g0.
  - exact mask_shape_mask0.
Defined.

Lemma backward_writes_gradients_only_witness :
  backward_keeps (deposit g0 (fst after_forward0)) after_backward0.
Proof.
  apply (backward_writes_gradients_only (deposit g0 (fst after_forward0))
           after_backward0).
  exact backward0_runs.
Defined.
